(** * modular-embedder: the provider registry, the configuration builder and
    the batching logic of the Ollama backend, embedded in Rocq.

    The Go package [embedder] is translated function by function.  Go values
    are modelled as follows.

    - [string] is a byte string ([len] counts bytes, [s[:n]] cuts bytes).
    - [int] is a 64-bit two's complement integer, kept as a [Z] and wrapped
      after every addition ([int_add]).
    - A slice [[]T] is [option (list T)]: [None] is the nil slice.
    - A map [map[string]T] is [option (gmap string T)]: [None] is the nil map.
      Maps are copied by value.  In Go [NewConfig] hands out the very map of
      [DefaultConfig], so [WithOption] on its result also changes the default;
      the functions that read [DefaultConfig] are stated for whatever value
      it holds.
    - [error] is a tree of messages: [fmt.Errorf] with [%w] keeps the wrapped
      error next to the formatted message.
    - A Go function with results [(v, err)] returns the pair, with [None] for
      a nil [err].
    - Methods with a pointer receiver that assign to the receiver return the
      updated receiver.
    - The [sync.RWMutex] of the factory is not modelled: calls are sequential.

    Everything outside the package (HTTP transport, JSON and YAML codecs, the
    file system, the environment, float narrowing) is a field of the classes
    [ExternalTypes] and [ExternalCalls].  The state of the outside world is
    threaded through the state monad [M], together with the list of HTTP
    requests issued and the lines handed to [log.Println]. *)

From stdpp Require Import gmap strings list fin_maps pretty.
From Stdlib Require Import ZArith Lia.

Open Scope string_scope.
Open Scope list_scope.
Open Scope Z_scope.

(** ** Go values *)

(** [error]: [errorString] for [errors.New] and [fmt.Errorf] without [%w],
    [wrapError] for [fmt.Errorf] with [%w]. *)
Inductive error : Type :=
| errorString (s : string)
| wrapError (msg : string) (err : error).

(** [err.Error()] *)
Definition err_Error (e : error) : string :=
  match e with
  | errorString s => s
  | wrapError msg _ => msg
  end.

(** [errors.Unwrap(err)] *)
Definition err_Unwrap (e : error) : option error :=
  match e with
  | errorString _ => None
  | wrapError _ err => Some err
  end.

(** The error and everything it wraps, outermost first. *)
Fixpoint err_chain (e : error) : list error :=
  e :: match e with
       | errorString _ => []
       | wrapError _ err => err_chain err
       end.

(** [fmt.Errorf(prefix + "%w", err)] *)
Definition Errorf_w (prefix : string) (err : error) : error :=
  wrapError (prefix +:+ err_Error err) err.

(** [int] on a 64-bit platform. *)
Definition int_min : Z := - 2 ^ 63.
Definition int_max : Z := 2 ^ 63 - 1.

Definition int_wrap (z : Z) : Z := (z + 2 ^ 63) mod 2 ^ 64 - 2 ^ 63.

Definition int_add (a b : Z) : Z := int_wrap (a + b).

Definition is_int (z : Z) : Prop := int_min ≤ z ≤ int_max.

(** Slices.  [None] is nil. *)
Definition slice (A : Type) : Type := option (list A).

Definition elems {A} (s : slice A) : list A :=
  match s with
  | None => []
  | Some l => l
  end.

(** [len(s)] *)
Definition len {A} (l : list A) : Z := Z.of_nat (length l).

(** [append(s, xs...)]: appending nothing to nil gives nil back. *)
Definition append {A} (s : slice A) (xs : list A) : slice A :=
  match s, xs with
  | None, [] => None
  | _, _ => Some (elems s ++ xs)
  end.

(** [s[i:j]] on a slice whose capacity is its length; [None] is the run-time
    panic "slice bounds out of range". *)
Definition slice_expr {A} (s : list A) (i j : Z) : option (list A) :=
  if bool_decide (0 ≤ i ∧ i ≤ j ∧ j ≤ len s)
  then Some (take (Z.to_nat (j - i)) (drop (Z.to_nat i) s))
  else None.

(** [strings.TrimSuffix(s, suffix)] *)
Definition has_suffix (s suffix : string) : bool :=
  let n := String.length s in
  let k := String.length suffix in
  bool_decide (k ≤ n)%nat && bool_decide (String.substring (n - k) k s = suffix).

Definition TrimSuffix (s suffix : string) : string :=
  if has_suffix s suffix
  then String.substring 0 (String.length s - String.length suffix) s
  else s.

(** How a function body ends. *)
Inductive outcome (A : Type) : Type :=
| Returns (a : A)
| Panics (msg : string)
| OutOfFuel.
Arguments Returns {A} a.
Arguments Panics {A} msg.
Arguments OutOfFuel {A}.

(** ** The types the package does not define *)

Class ExternalTypes : Type := {
  float64 : Type;
  float32 : Type;
  (** the conversion [float32(val)] *)
  narrow : float64 → float32;
  (** [context.Context] and [context.Background()] *)
  Context_ : Type;
  context_Background : Context_;
  (** dynamic values held in [interface{}] option maps *)
  any : Type;
  (** values of the other types that implement [Embedder] *)
  Custom : Type;
  (** the world outside the process: servers, files, environment *)
  Env : Type;
}.

Section Types.
Context `{ExternalTypes}.

(** interface.go *)
Record Config : Type := {
  Provider : string;
  BaseURL : string;
  Model : string;
  (** [time.Duration], in nanoseconds *)
  Timeout : Z;
  Options : option (gmap string any);
}.

Definition Second : Z := 1000000000.

(** The package-level variable [DefaultConfig].  It is exported and can be
    assigned, so the functions that read it take its current value from
    [Globals]. *)
Record Globals : Type := { DefaultConfig : Config }.

(** [DefaultConfig] as the package initialises it. *)
Definition Globals_init : Globals := {|
  DefaultConfig := {|
    Provider := "ollama";
    BaseURL := "http://localhost:11434";
    Model := "qwen2.5:7b";
    Timeout := 30 * Second;
    Options := Some ∅;
  |}
|}.

(** The zero value of [Config] ([var config Config]). *)
Definition zero_Config : Config := {|
  Provider := "";
  BaseURL := "";
  Model := "";
  Timeout := 0;
  Options := None;
|}.

(** net/http, as far as the package uses it. *)
Record http_Client : Type := { Client_Timeout : Z }.

Record Request : Type := {
  Method : string;
  URL : string;
  ReqBody : option string;
  Header : gmap string string;
  ReqCtx : Context_;
}.

Record Response : Type := {
  StatusCode : Z;
  (** what [io.ReadAll(resp.Body)] returns *)
  Body : string;
  BodyReadErr : option error;
  (** what [resp.Body.Close()] returns *)
  BodyCloseErr : option error;
}.

(** ollama.go *)
Record ollamaEmbedRequest : Type := {
  Req_Model : string;
  Req_Prompt : string;
}.

Record ollamaEmbedResponse : Type := {
  Embedding : slice float64;
}.

End Types.

(** ** The calls that leave the package *)

Class ExternalCalls `{ExternalTypes} : Type := {
  (** [os.Getenv] *)
  os_Getenv : string → Env → string;
  (** [os.ReadFile] *)
  os_ReadFile : string → Env → (string * option error) * Env;
  (** [yaml.Unmarshal(data, &config)]: the decoded value and the error *)
  yaml_Unmarshal : string → Config → Config * option error;
  (** the URL check of [http.NewRequestWithContext] *)
  url_Parse : string → option error;
  (** [httpClient.Do(req)] *)
  http_Do : http_Client → Request → Env → (Response + error) * Env;
  (** [json.Marshal(reqData)] *)
  json_Marshal : ollamaEmbedRequest → string * option error;
  (** [json.Unmarshal(bodyBytes, &respData)] into a zero [respData] *)
  json_Unmarshal : string → ollamaEmbedResponse * option error;
}.

(** ** The state monad *)

Section Monad.
Context `{ExternalCalls}.

Record World : Type := {
  env : Env;
  (** the requests handed to [httpClient.Do], oldest first *)
  sent : list Request;
  (** the lines handed to [log.Println], oldest first *)
  logged : list string;
}.

Definition M (A : Type) : Type := World → A * World.

#[export] Instance M_ret : MRet M := λ A a w, (a, w).
#[export] Instance M_bind : MBind M :=
  λ A B f m w, let '(a, w') := m w in f a w'.

(** [log.Println(line)] *)
Definition log_Println (line : string) : M unit :=
  λ w, (tt, {| env := env w; sent := sent w; logged := logged w ++ [line] |}).

(** [os.Getenv(key)] *)
Definition Getenv (key : string) : M string :=
  λ w, (os_Getenv key (env w), w).

(** [os.ReadFile(path)] *)
Definition ReadFile (path : string) : M (string * option error) :=
  λ w, let '(r, env') := os_ReadFile path (env w) in
       (r, {| env := env'; sent := sent w; logged := logged w |}).

(** [client.Do(req)] *)
Definition Do (client : http_Client) (req : Request) : M (Response + error) :=
  λ w, let '(r, env') := http_Do client req (env w) in
       (r, {| env := env'; sent := sent w ++ [req]; logged := logged w |}).

End Monad.

(** ** logger.go *)

(** The dynamic types that reach [Field.Value]: the package builds fields with
    [String], [Int] and [Error] only. *)
Inductive FieldValue : Type :=
| VString (s : string)
| VInt (n : Z)
| VError (e : error).

Record Field : Type := {
  Key : string;
  Value : FieldValue;
}.

Module Fields.

Definition String (key value : string) : Field :=
  {| Key := key; Value := VString value |}.

Definition Int (key : string) (value : Z) : Field :=
  {| Key := key; Value := VInt value |}.

Definition Error (err : error) : Field :=
  {| Key := "error"; Value := VError err |}.

End Fields.

(** The verb [%v]. *)
Definition fmt_v (v : FieldValue) : string :=
  match v with
  | VString s => s
  | VInt n => pretty n
  | VError e => err_Error e
  end.

Module Logger.

Record t : Type := { name : string }.

Definition Named (l : t) (name' : string) : t :=
  {| name := name l +:+ "." +:+ name' |}.

(** The [for i, field := range fields] loop of [log]. *)
Fixpoint log_range (i : Z) (fields : list Field) (logMsg : string) : string :=
  match fields with
  | [] => logMsg
  | field :: fields =>
      let logMsg := if bool_decide (i > 0) then logMsg +:+ ", " else logMsg in
      log_range (i + 1) fields
        (logMsg +:+ Key field +:+ ": " +:+ fmt_v (Value field))
  end.

Section Methods.
Context `{ExternalCalls}.

Definition log (l : t) (level msg : string) (fields : list Field) : M unit :=
  let logMsg := "[" +:+ level +:+ "] " +:+ name l +:+ ": " +:+ msg in
  let logMsg :=
    if bool_decide (len fields > 0)
    then log_range 0 fields (logMsg +:+ " {") +:+ "}"
    else logMsg in
  log_Println logMsg.

Definition Info (l : t) (msg : string) (fields : list Field) : M unit :=
  log l "INFO" msg fields.

Definition Error (l : t) (msg : string) (fields : list Field) : M unit :=
  log l "ERROR" msg fields.

Definition Debug (l : t) (msg : string) (fields : list Field) : M unit :=
  debug ← Getenv "DEBUG";
  if bool_decide (debug ≠ "") then log l "DEBUG" msg fields else mret tt.

Definition Warn (l : t) (msg : string) (fields : list Field) : M unit :=
  log l "WARN" msg fields.

End Methods.
End Logger.

Definition NewLogger (name : string) : Logger.t := {| Logger.name := name |}.

(** ** ollama.go *)

Section Http.
Context `{ExternalCalls}.

(** [http.NewRequestWithContext(ctx, method, url, body)] *)
Definition NewRequestWithContext (ctx : Context_) (method url : string)
    (body : option string) : Request + error :=
  match url_Parse url with
  | Some err => inr err
  | None =>
      inl {| Method := method; URL := url; ReqBody := body; Header := ∅;
             ReqCtx := ctx |}
  end.

(** [req.Header.Set(key, value)] *)
Definition Header_Set (req : Request) (key value : string) : Request :=
  {| Method := Method req; URL := URL req; ReqBody := ReqBody req;
     Header := <[key := value]> (Header req); ReqCtx := ReqCtx req |}.

End Http.

Module OllamaEmbedder.
Section Methods.
Context `{ExternalCalls}.

Record t : Type := {
  baseURL : string;
  model : string;
  httpClient : http_Client;
  dimension : Z;
  logger : Logger.t;
}.

(** [getTextPreview] *)
Definition getTextPreview (e : t) (text : string) : string :=
  if bool_decide (String.length text ≤ 50)%nat
  then text
  else String.substring 0 47 text +:+ "...".

(** [closeResponse] *)
Definition closeResponse (e : t) (resp : Response) : M unit :=
  match BodyCloseErr resp with
  | Some err => Logger.Warn (logger e) "关闭响应体失败" [Fields.Error err]
  | None => mret tt
  end.

(** [Health]; the deferred [closeResponse] runs once the result is fixed. *)
Definition Health (e : t) (ctx : Context_) : M (option error) :=
  let url := baseURL e +:+ "/api/version" in
  match NewRequestWithContext ctx "GET" url None with
  | inr err => mret (Some err)
  | inl req =>
      r ← Do (httpClient e) req;
      match r with
      | inr err => mret (Some err)
      | inl resp =>
          let result :=
            if bool_decide (StatusCode resp ≠ 200)
            then Some (errorString ("ollama health check failed: HTTP "
                                    +:+ pretty (StatusCode resp)))
            else None in
          closeResponse e resp;;
          mret result
      end
  end.

(** [makeRequest], at its one call site: [reqData] is an
    [ollamaEmbedRequest] and [respData] points to a zero
    [ollamaEmbedResponse]; the response value is returned next to the error. *)
Definition makeRequest (e : t) (ctx : Context_) (url : string)
    (reqData : ollamaEmbedRequest) : M (ollamaEmbedResponse * option error) :=
  let respData := {| Embedding := None |} in
  match json_Marshal reqData with
  | (_, Some err) => mret (respData, Some err)
  | (jsonData, None) =>
      match NewRequestWithContext ctx "POST" url (Some jsonData) with
      | inr err => mret (respData, Some err)
      | inl req =>
          let req := Header_Set req "Content-Type" "application/json" in
          r ← Do (httpClient e) req;
          match r with
          | inr err => mret (respData, Some err)
          | inl resp =>
              let result :=
                if bool_decide (StatusCode resp >= 400)
                then (respData,
                      Some (errorString ("HTTP " +:+ pretty (StatusCode resp)
                                         +:+ ": " +:+ Body resp)))
                else match BodyReadErr resp with
                     | Some err => (respData, Some err)
                     | None => json_Unmarshal (Body resp)
                     end in
              closeResponse e resp;;
              mret result
          end
      end
  end.

(** [embedSingle] *)
Definition embedSingle (e : t) (ctx : Context_) (text : string)
    : M (slice float32 * option error) :=
  let url := baseURL e +:+ "/api/embeddings" in
  let reqData := {| Req_Model := model e; Req_Prompt := text |} in
  '(respData, err) ← makeRequest e ctx url reqData;
  match err with
  | Some err => mret (None, Some (Errorf_w "failed to embed text: " err))
  | None => mret (Some (narrow <$> elems (Embedding respData)), None)
  end.

(** [EmbedSingle] *)
Definition EmbedSingle (e : t) (ctx : Context_) (text : string)
    : M (slice float32 * option error) :=
  embedSingle e ctx text.

(** The [for i, text := range texts] loop of [Embed].  [inl] is the value of
    [allEmbeddings] when the loop falls through, [inr] the results of the
    [return] inside the loop. *)
Fixpoint Embed_range (e : t) (ctx : Context_) (i : Z) (texts : list string)
    (allEmbeddings : slice (slice float32))
    : M (slice (slice float32) + slice (slice float32) * option error) :=
  match texts with
  | [] => mret (inl allEmbeddings)
  | text :: texts =>
      '(embedding, err) ← embedSingle e ctx text;
      match err with
      | Some err =>
          Logger.Error (logger e) "嵌入文本失败"
            [Fields.Error err; Fields.Int "index" i;
             Fields.String "text_preview" (getTextPreview e text)];;
          mret (inr (None,
                     Some (Errorf_w ("failed to embed text at index "
                                     +:+ pretty i +:+ ": ") err)))
      | None =>
          Embed_range e ctx (i + 1) texts (append allEmbeddings [embedding])
      end
  end.

(** [Embed] *)
Definition Embed (e : t) (ctx : Context_) (texts : list string)
    : M (slice (slice float32) * option error) :=
  if bool_decide (len texts = 0) then mret (Some [], None) else
  Logger.Debug (logger e) "开始嵌入文本" [Fields.Int "count" (len texts)];;
  r ← Embed_range e ctx 0 texts None;
  match r with
  | inr results => mret results
  | inl allEmbeddings =>
      Logger.Debug (logger e) "文本嵌入完成"
        [Fields.Int "count" (len (elems allEmbeddings))];;
      mret (allEmbeddings, None)
  end.

(** The [for i := 0; i < len(texts); i += batchSize] loop of [BatchEmbed],
    entered with the current [i] and [allEmbeddings].  [fuel] bounds the
    number of times the loop condition is tested. *)
Fixpoint BatchEmbed_for (fuel : nat) (e : t) (ctx : Context_)
    (texts : list string) (batchSize i : Z)
    (allEmbeddings : slice (slice float32))
    : M (outcome (slice (slice float32) * option error)) :=
  match fuel with
  | O => mret OutOfFuel
  | S fuel =>
      if bool_decide (i < len texts) then
        let end_ := int_add i batchSize in
        let end_ := if bool_decide (end_ > len texts) then len texts else end_ in
        match slice_expr texts i end_ with
        | None => mret (Panics "slice bounds out of range")
        | Some batch =>
            '(embeddings, err) ← Embed e ctx batch;
            match err with
            | Some err => mret (Returns (None, Some err))
            | None =>
                BatchEmbed_for fuel e ctx texts batchSize (int_add i batchSize)
                  (append allEmbeddings (elems embeddings))
            end
        end
      else mret (Returns (allEmbeddings, None))
  end.

(** [BatchEmbed].  The loop condition is tested at most [len(texts) + 1]
    times, see [BatchEmbed_fuel]. *)
Definition BatchEmbed (e : t) (ctx : Context_) (texts : list string)
    (batchSize : Z) : M (outcome (slice (slice float32) * option error)) :=
  let batchSize := if bool_decide (batchSize ≤ 0) then len texts else batchSize in
  BatchEmbed_for (S (length texts)) e ctx texts batchSize 0 None.

(** [GetDimension] *)
Definition GetDimension (e : t) : Z := dimension e.

(** [GetModel] *)
Definition GetModel (e : t) : string := model e.

(** [detectDimension]; the receiver after the call comes first. *)
Definition detectDimension (e : t) (ctx : Context_) : M (t * option error) :=
  '(embedding, err) ← embedSingle e ctx "test";
  match err with
  | Some err => mret (e, Some err)
  | None =>
      let e := {| baseURL := baseURL e; model := model e;
                  httpClient := httpClient e;
                  dimension := len (elems embedding);
                  logger := logger e |} in
      Logger.Debug (logger e) "检测到嵌入维度"
        [Fields.Int "dimension" (dimension e)];;
      mret (e, None)
  end.

End Methods.
End OllamaEmbedder.

Section Ollama.
Context `{ExternalCalls}.

(** [NewOllamaEmbedder] *)
Definition NewOllamaEmbedder (config : Config)
    : M (option OllamaEmbedder.t * option error) :=
  let logger := NewLogger "ollama-embedder" in
  let embedder := {|
    OllamaEmbedder.baseURL := TrimSuffix (BaseURL config) "/";
    OllamaEmbedder.model := Model config;
    OllamaEmbedder.httpClient := {| Client_Timeout := Timeout config |};
    OllamaEmbedder.dimension := 0;
    OllamaEmbedder.logger := logger;
  |} in
  let ctx := context_Background in
  err ← OllamaEmbedder.Health embedder ctx;
  match err with
  | Some err => mret (None, Some (Errorf_w "failed to connect to Ollama: " err))
  | None =>
      '(embedder, err) ← OllamaEmbedder.detectDimension embedder ctx;
      match err with
      | Some err =>
          mret (None,
                Some (Errorf_w "failed to detect embedding dimension: " err))
      | None =>
          Logger.Info logger "Ollama嵌入服务初始化成功"
            [Fields.String "base_url" (BaseURL config);
             Fields.String "model" (Model config);
             Fields.Int "dimension" (OllamaEmbedder.dimension embedder)];;
          mret (Some embedder, None)
      end
  end.

(** ** interface.go: the [Embedder] interface *)

(** A value of interface type [Embedder]: a [*OllamaEmbedder] (possibly a nil
    pointer) or a value of another implementing type.  The nil interface is
    [None] of [option Embedder]. *)
Inductive Embedder : Type :=
| Embedder_Ollama (p : option OllamaEmbedder.t)
| Embedder_Custom (c : Custom).

End Ollama.

(** [ProviderFunc] *)
Abbreviation ProviderFunc := (Config → M (option Embedder * option error)).

(** ** factory.go: the provider registry *)

Module Factory.
Section Methods.
Context `{ExternalCalls}.

(** [providers] is never the nil map: [NewFactory] is the only constructor
    and the fields are unexported. *)
Record t : Type := {
  providers : gmap string ProviderFunc;
  logger : Logger.t;
}.

(** [Create] *)
Definition Create (g : Globals) (f : t) (provider : string)
    : M (option Embedder * option error) :=
  match providers f !! provider with
  | None => mret (None, Some (errorString ("unsupported provider: " +:+ provider)))
  | Some providerFunc =>
      let config := DefaultConfig g in
      let config := {|
        Provider := provider; BaseURL := BaseURL config;
        Model := Model config; Timeout := Timeout config;
        Options := Options config |} in
      Logger.Info (logger f) "创建嵌入服务" [Fields.String "provider" provider];;
      providerFunc config
  end.

(** [CreateWithConfig] *)
Definition CreateWithConfig (f : t) (config : Config)
    : M (option Embedder * option error) :=
  match providers f !! Provider config with
  | None =>
      mret (None,
            Some (errorString ("unsupported provider: " +:+ Provider config)))
  | Some providerFunc =>
      Logger.Info (logger f) "创建嵌入服务"
        [Fields.String "provider" (Provider config);
         Fields.String "model" (Model config)];;
      providerFunc config
  end.

(** [RegisterProvider]; the factory after the call comes first. *)
Definition RegisterProvider (f : t) (name : string) (provider : ProviderFunc)
    : M (t * option error) :=
  match providers f !! name with
  | Some _ =>
      mret (f, Some (errorString ("provider " +:+ name +:+ " already registered")))
  | None =>
      let f := {| providers := <[name := provider]> (providers f);
                  logger := logger f |} in
      Logger.Info (logger f) "注册新provider" [Fields.String "name" name];;
      mret (f, None)
  end.

(** [ListProviders].  Go leaves the iteration order of a map open; the
    order of [map_to_list] stands for one of them, and the theorems about
    this function hold for every permutation of its result. *)
Definition ListProviders (f : t) : list string :=
  (map_to_list (providers f)).*1.

End Methods.
End Factory.

Section NewFactory.
Context `{ExternalCalls}.

(** The function literal registered by [NewFactory]; the [*OllamaEmbedder]
    becomes an [Embedder] on return. *)
Definition ollama_provider : ProviderFunc :=
  λ config,
    '(p, err) ← NewOllamaEmbedder config;
    mret (Some (Embedder_Ollama p), err).

(** [NewFactory]; the error of [RegisterProvider] is dropped as in the
    source. *)
Definition NewFactory : M Factory.t :=
  let factory := {| Factory.providers := ∅;
                    Factory.logger := NewLogger "embedder-factory" |} in
  '(factory, _) ← Factory.RegisterProvider factory "ollama" ollama_provider;
  mret factory.

(** The package-level variable [defaultFactory], initialised by
    [NewFactory()] when the package is loaded ([Package_init]). *)
Record Package : Type := { defaultFactory : Factory.t }.

Definition Package_init : M Package :=
  f ← NewFactory;
  mret {| defaultFactory := f |}.

(** [*Factory] values held by builders: [New] stores [defaultFactory]. *)
Inductive ptr_Factory : Type := ptr_defaultFactory.

Definition deref (pkg : Package) (p : ptr_Factory) : Factory.t :=
  match p with ptr_defaultFactory => defaultFactory pkg end.

(** ** config.go *)

(** [LoadConfig(path)] *)
Definition LoadConfig (g : Globals) (path : string)
    : M (option Config * option error) :=
  '(data, err) ← ReadFile path;
  match err with
  | Some err => mret (None, Some err)
  | None =>
      let config := zero_Config in
      match yaml_Unmarshal data config with
      | (_, Some err) => mret (None, Some err)
      | (config, None) =>
          let config :=
            if bool_decide (Provider config = "")
            then {| Provider := Provider (DefaultConfig g); BaseURL := BaseURL config;
                    Model := Model config; Timeout := Timeout config;
                    Options := Options config |}
            else config in
          let config :=
            if bool_decide (BaseURL config = "")
            then {| Provider := Provider config;
                    BaseURL := BaseURL (DefaultConfig g);
                    Model := Model config; Timeout := Timeout config;
                    Options := Options config |}
            else config in
          let config :=
            if bool_decide (Model config = "")
            then {| Provider := Provider config; BaseURL := BaseURL config;
                    Model := Model (DefaultConfig g); Timeout := Timeout config;
                    Options := Options config |}
            else config in
          let config :=
            if bool_decide (Timeout config = 0)
            then {| Provider := Provider config; BaseURL := BaseURL config;
                    Model := Model config;
                    Timeout := Timeout (DefaultConfig g);
                    Options := Options config |}
            else config in
          let config :=
            if bool_decide (Options config = None)
            then {| Provider := Provider config; BaseURL := BaseURL config;
                    Model := Model config; Timeout := Timeout config;
                    Options := Some ∅ |}
            else config in
          mret (Some config, None)
      end
  end.

End NewFactory.

Module EmbedderConfig.
Section Methods.
Context `{ExternalCalls}.

Record t : Type := { config : Config }.

Definition WithProvider (c : t) (provider : string) : t :=
  {| config := {| Provider := provider; BaseURL := BaseURL (config c);
                  Model := Model (config c); Timeout := Timeout (config c);
                  Options := Options (config c) |} |}.

Definition WithBaseURL (c : t) (baseURL : string) : t :=
  {| config := {| Provider := Provider (config c); BaseURL := baseURL;
                  Model := Model (config c); Timeout := Timeout (config c);
                  Options := Options (config c) |} |}.

Definition WithModel (c : t) (model : string) : t :=
  {| config := {| Provider := Provider (config c); BaseURL := BaseURL (config c);
                  Model := model; Timeout := Timeout (config c);
                  Options := Options (config c) |} |}.

Definition WithTimeout (c : t) (timeout : Z) : t :=
  {| config := {| Provider := Provider (config c); BaseURL := BaseURL (config c);
                  Model := Model (config c); Timeout := timeout;
                  Options := Options (config c) |} |}.

Definition WithOption (c : t) (key : string) (value : any) : t :=
  let options :=
    match Options (config c) with
    | None => ∅
    | Some options => options
    end in
  {| config := {| Provider := Provider (config c); BaseURL := BaseURL (config c);
                  Model := Model (config c); Timeout := Timeout (config c);
                  Options := Some (<[key := value]> options) |} |}.

(** The method [LoadConfig]; the receiver after the call comes first.
    [*config] on a nil pointer is the run-time panic. *)
Definition LoadConfig (g : Globals) (c : t) (path : string)
    : M (outcome (t * option error)) :=
  '(config', err) ← LoadConfig g path;
  match err with
  | Some err => mret (Returns (c, Some err))
  | None =>
      match config' with
      | None => mret (Panics "invalid memory address or nil pointer dereference")
      | Some config' => mret (Returns ({| config := config' |}, None))
      end
  end.

Definition GetConfig (c : t) : Config := config c.

End Methods.
End EmbedderConfig.

Section NewConfig.
Context `{ExternalCalls}.

Definition NewConfig (g : Globals) : EmbedderConfig.t :=
  {| EmbedderConfig.config := DefaultConfig g |}.

End NewConfig.

(** ** factory.go: the builder *)

Module EmbedderBuilder.
Section Methods.
Context `{ExternalCalls}.

Record t : Type := {
  config : EmbedderConfig.t;
  factory : ptr_Factory;
}.

Definition WithBaseURL (b : t) (baseURL : string) : t :=
  {| config := EmbedderConfig.WithBaseURL (config b) baseURL;
     factory := factory b |}.

Definition WithModel (b : t) (model : string) : t :=
  {| config := EmbedderConfig.WithModel (config b) model;
     factory := factory b |}.

(** [timeout] has type [interface{}]: a value of any type. *)
Definition WithTimeout {T : Type} (b : t) (timeout : T) : t := b.

Definition WithOption (b : t) (key : string) (value : any) : t :=
  {| config := EmbedderConfig.WithOption (config b) key value;
     factory := factory b |}.

Definition LoadConfig (g : Globals) (b : t) (path : string)
    : M (outcome (t * option error)) :=
  r ← EmbedderConfig.LoadConfig g (config b) path;
  match r with
  | Returns (c, err) => mret (Returns ({| config := c; factory := factory b |}, err))
  | Panics msg => mret (Panics msg)
  | OutOfFuel => mret OutOfFuel
  end.

Definition Build (pkg : Package) (b : t) : M (option Embedder * option error) :=
  Factory.CreateWithConfig (deref pkg (factory b))
    (EmbedderConfig.GetConfig (config b)).

End Methods.
End EmbedderBuilder.

Section Package.
Context `{ExternalCalls}.

(** [New] *)
Definition New (g : Globals) (provider : string) : EmbedderBuilder.t :=
  {| EmbedderBuilder.config :=
       {| EmbedderConfig.config :=
            {| Provider := provider;
               BaseURL := BaseURL (DefaultConfig g);
               Model := Model (DefaultConfig g);
               Timeout := Timeout (DefaultConfig g);
               Options := Some ∅ |} |};
     EmbedderBuilder.factory := ptr_defaultFactory |}.

Definition CreateEmbedder (g : Globals) (pkg : Package) (provider : string)
    : M (option Embedder * option error) :=
  Factory.Create g (defaultFactory pkg) provider.

Definition CreateEmbedderWithConfig (pkg : Package) (config : Config)
    : M (option Embedder * option error) :=
  Factory.CreateWithConfig (defaultFactory pkg) config.

Definition RegisterProvider (pkg : Package) (name : string)
    (provider : ProviderFunc) : M (Package * option error) :=
  '(f, err) ← Factory.RegisterProvider (defaultFactory pkg) name provider;
  mret ({| defaultFactory := f |}, err).

Definition ListProviders (pkg : Package) : list string :=
  Factory.ListProviders (defaultFactory pkg).

End Package.

(** ** Vocabulary of the statements *)

Section Vocabulary.
Context `{ExternalCalls}.

(** The request [Health] hands to the transport. *)
Definition health_request (e : OllamaEmbedder.t) (ctx : Context_) : Request :=
  {| Method := "GET"; URL := OllamaEmbedder.baseURL e +:+ "/api/version";
     ReqBody := None; Header := ∅; ReqCtx := ctx |}.

(** The request [embedSingle] hands to the transport for [text]. *)
Definition embed_request (e : OllamaEmbedder.t) (ctx : Context_)
    (text : string) : Request :=
  {| Method := "POST"; URL := OllamaEmbedder.baseURL e +:+ "/api/embeddings";
     ReqBody :=
       Some (json_Marshal {| Req_Model := OllamaEmbedder.model e;
                             Req_Prompt := text |}).1;
     Header := {[ "Content-Type" := "application/json" ]};
     ReqCtx := ctx |}.

(** The error [Embed] returns for the primitive's error [err] at index [i]. *)
Definition index_error (i : Z) (err : error) : error :=
  Errorf_w ("failed to embed text at index " +:+ pretty i +:+ ": ") err.

(** The line [Embed] logs for the primitive's error [err] on [text] at
    index [i]. *)
Definition index_error_line (e : OllamaEmbedder.t) (i : Z) (text : string)
    (err : error) : string :=
  "[ERROR] " +:+ Logger.name (OllamaEmbedder.logger e) +:+ ": 嵌入文本失败 {error: "
  +:+ err_Error err +:+ ", index: " +:+ pretty i +:+ ", text_preview: "
  +:+ OllamaEmbedder.getTextPreview e text +:+ "}".

(** Following the spec's words for [Embed]: "for each text in the input
    sequence, in order, invoke the single-item embed primitive; accumulate
    results preserving input order", and stop at the first failure.  The
    result holds the vectors obtained before the first failure and the
    primitive's own error, so the failing index is the number of vectors. *)
Fixpoint invoke_in_order (e : OllamaEmbedder.t) (ctx : Context_)
    (texts : list string) : M (list (slice float32) * option error) :=
  match texts with
  | [] => mret ([], None)
  | text :: texts =>
      '(v, err) ← OllamaEmbedder.embedSingle e ctx text;
      match err with
      | Some err => mret ([], Some err)
      | None =>
          '(vs, err) ← invoke_in_order e ctx texts;
          mret (v :: vs, err)
      end
  end.

(** Two worlds that differ at most in the lines logged. *)
Definition same_io (w1 w2 : World) : Prop :=
  env w1 = env w2 ∧ sent w1 = sent w2.

(** Following the spec's words for [BatchEmbed]: "partitions texts into
    consecutive chunks of at most batchSize items each (last chunk may be
    shorter)". *)
Fixpoint chunks_upto {A} (fuel n : nat) (l : list A) : list (list A) :=
  match fuel, l with
  | _, [] => []
  | O, _ :: _ => []
  | S fuel, _ :: _ => take n l :: chunks_upto fuel n (drop n l)
  end.

Definition chunks {A} (n : nat) (l : list A) : list (list A) :=
  chunks_upto (length l) n l.

(** "Invokes Embed once per chunk, in chunk order, concatenating results in
    order.  Aborts and returns the error from the first chunk that fails." *)
Fixpoint Embed_chunks (e : OllamaEmbedder.t) (ctx : Context_)
    (cs : list (list string)) (allEmbeddings : slice (slice float32))
    : M (slice (slice float32) * option error) :=
  match cs with
  | [] => mret (allEmbeddings, None)
  | batch :: cs =>
      '(embeddings, err) ← OllamaEmbedder.Embed e ctx batch;
      match err with
      | Some err => mret (None, Some err)
      | None => Embed_chunks e ctx cs (append allEmbeddings (elems embeddings))
      end
  end.

(** The calls a client can make on a ready [*OllamaEmbedder] through the
    [Embedder] interface. *)
Inductive call : Type :=
| call_Embed (ctx : Context_) (texts : list string)
| call_EmbedSingle (ctx : Context_) (text : string)
| call_BatchEmbed (ctx : Context_) (texts : list string) (batchSize : Z)
| call_GetDimension
| call_GetModel
| call_Health (ctx : Context_).

(** One call; the result is the receiver after it.  None of the six methods
    assigns to a field of the receiver. *)
Definition do_call (e : OllamaEmbedder.t) (c : call) : M OllamaEmbedder.t :=
  match c with
  | call_Embed ctx texts => OllamaEmbedder.Embed e ctx texts;; mret e
  | call_EmbedSingle ctx text => OllamaEmbedder.EmbedSingle e ctx text;; mret e
  | call_BatchEmbed ctx texts batchSize =>
      OllamaEmbedder.BatchEmbed e ctx texts batchSize;; mret e
  | call_GetDimension => let _ := OllamaEmbedder.GetDimension e in mret e
  | call_GetModel => let _ := OllamaEmbedder.GetModel e in mret e
  | call_Health ctx => OllamaEmbedder.Health e ctx;; mret e
  end.

Fixpoint do_calls (e : OllamaEmbedder.t) (cs : list call) : M OllamaEmbedder.t :=
  match cs with
  | [] => mret e
  | c :: cs => e ← do_call e c; do_calls e cs
  end.

(** The chained calls of the fluent builder. *)
Inductive fluent : Type :=
| fluent_WithBaseURL (baseURL : string)
| fluent_WithModel (model : string)
| fluent_WithTimeout {T : Type} (timeout : T)
| fluent_WithOption (key : string) (value : any).

Definition chain (b : EmbedderBuilder.t) (c : fluent) : EmbedderBuilder.t :=
  match c with
  | fluent_WithBaseURL baseURL => EmbedderBuilder.WithBaseURL b baseURL
  | fluent_WithModel model => EmbedderBuilder.WithModel b model
  | fluent_WithTimeout timeout => EmbedderBuilder.WithTimeout b timeout
  | fluent_WithOption key value => EmbedderBuilder.WithOption b key value
  end.

(** The errors of the registry. *)
Definition duplicate_error (name : string) : error :=
  errorString ("provider " +:+ name +:+ " already registered").

Definition unknown_error (name : string) : error :=
  errorString ("unsupported provider: " +:+ name).

(** The world after [os.ReadFile] left the environment [env']. *)
Definition after_read (w : World) (env' : Env) : World :=
  {| env := env'; sent := sent w; logged := logged w |}.

(** The world after one more line was logged. *)
Definition after_log (w : World) (line : string) : World :=
  {| env := env w; sent := sent w; logged := logged w ++ [line] |}.

(** Following the spec's words for the loaded configuration: "any key absent
    or holding an empty/zero value is back-filled" from the defaults. *)
Definition with_defaults (g : Globals) (parsed : Config) : Config :=
  {| Provider := if bool_decide (Provider parsed = "")
                 then Provider (DefaultConfig g) else Provider parsed;
     BaseURL := if bool_decide (BaseURL parsed = "")
                then BaseURL (DefaultConfig g) else BaseURL parsed;
     Model := if bool_decide (Model parsed = "")
              then Model (DefaultConfig g) else Model parsed;
     Timeout := if bool_decide (Timeout parsed = 0)
                then Timeout (DefaultConfig g) else Timeout parsed;
     Options := Some (default ∅ (Options parsed)) |}.

(** A computation whose result and whose effect on the environment and on
    the requests sent do not depend on the lines logged so far. *)
Definition respects {A} (m : M A) : Prop :=
  ∀ w1 w2, same_io w1 w2 → (m w1).1 = (m w2).1 ∧ same_io (m w1).2 (m w2).2.

(** The receiver [NewOllamaEmbedder] builds before it probes the backend. *)
Definition prototype (config : Config) : OllamaEmbedder.t :=
  {| OllamaEmbedder.baseURL := TrimSuffix (BaseURL config) "/";
     OllamaEmbedder.model := Model config;
     OllamaEmbedder.httpClient := {| Client_Timeout := Timeout config |};
     OllamaEmbedder.dimension := 0;
     OllamaEmbedder.logger := NewLogger "ollama-embedder" |}.


(** A run of [RegisterProvider] calls on one registry, errors dropped. *)
Fixpoint register_all (f : Factory.t) (regs : list (string * ProviderFunc))
    : M Factory.t :=
  match regs with
  | [] => mret f
  | (name, provider) :: regs =>
      '(f, _) ← Factory.RegisterProvider f name provider;
      register_all f regs
  end.

(** The arguments of the [WithBaseURL] calls of a chain, in call order. *)
Definition baseURLs_set (cs : list fluent) : list string :=
  omap (λ c, match c with fluent_WithBaseURL baseURL => Some baseURL | _ => None end) cs.

Definition models_set (cs : list fluent) : list string :=
  omap (λ c, match c with fluent_WithModel model => Some model | _ => None end) cs.

(** The values the [WithOption] calls of a chain give for [key], in call
    order. *)
Definition options_set (key : string) (cs : list fluent) : list any :=
  omap (λ c, match c with
             | fluent_WithOption key' value =>
                 if bool_decide (key' = key) then Some value else None
             | _ => None
             end) cs.

(** Reading [config.Options[key]]; a nil map reads as an empty one. *)
Definition option_of (config : Config) (key : string) : option any :=
  default ∅ (Options config) !! key.

Definition builder_config (b : EmbedderBuilder.t) : Config :=
  EmbedderConfig.GetConfig (EmbedderBuilder.config b).

(** The receiver with the dimension set, as [detectDimension] leaves it. *)
Definition with_dimension (e : OllamaEmbedder.t) (d : Z) : OllamaEmbedder.t :=
  {| OllamaEmbedder.baseURL := OllamaEmbedder.baseURL e;
     OllamaEmbedder.model := OllamaEmbedder.model e;
     OllamaEmbedder.httpClient := OllamaEmbedder.httpClient e;
     OllamaEmbedder.dimension := d;
     OllamaEmbedder.logger := OllamaEmbedder.logger e |}.

(** The error [Health] returns for a status other than 200. *)
Definition health_status_error (code : Z) : error :=
  errorString ("ollama health check failed: HTTP " +:+ pretty code).

(** The error [makeRequest] returns for a status of 400 or more. *)
Definition http_status_error (code : Z) (body : string) : error :=
  errorString ("HTTP " +:+ pretty code +:+ ": " +:+ body).

(** What [makeRequest] makes of the answer of the transport. *)
Definition decode_answer (answer : Response + error)
    : ollamaEmbedResponse * option error :=
  match answer with
  | inr err => ({| Embedding := None |}, Some err)
  | inl resp =>
      if bool_decide (StatusCode resp >= 400)
      then ({| Embedding := None |},
            Some (http_status_error (StatusCode resp) (Body resp)))
      else match BodyReadErr resp with
           | Some err => ({| Embedding := None |}, Some err)
           | None => json_Unmarshal (Body resp)
           end
  end.

End Vocabulary.

(** [contains s sub]: [sub] occurs in [s]. *)
Fixpoint contains (s sub : string) : bool :=
  String.prefix sub s
  || match s with
     | EmptyString => false
     | String _ s => contains s sub
     end.

(** [strings.Join(l, sep)] *)
Fixpoint Join (l : list string) (sep : string) : string :=
  match l with
  | [] => ""
  | [x] => x
  | x :: l => x +:+ sep +:+ Join l sep
  end.

(** A field as [log] prints it. *)
Definition field_text (field : Field) : string :=
  Key field +:+ ": " +:+ fmt_v (Value field).

(** The line [log] hands to [log.Println]. *)
Definition log_line (name level msg : string) (fields : list Field) : string :=
  "[" +:+ level +:+ "] " +:+ name +:+ ": " +:+ msg
  +:+ match fields with
      | [] => ""
      | _ :: _ => " {" +:+ Join (field_text <$> fields) ", " +:+ "}"
      end.

(** ** A small backend to run the model on

    The server answers the version probe with 200 and an embedding request
    with a four-element vector whose first entry is the byte length of the
    prompt; the prompt ["bad"] gets a 500.  The marshalled request is the
    prompt itself.  Three files exist. *)

Module Mock.

Definition types : ExternalTypes := {|
  float64 := Z;
  float32 := Z;
  narrow := λ x, x;
  Context_ := unit;
  context_Background := tt;
  any := string;
  Custom := unit;
  (** the number of requests served *)
  Env := nat;
|}.
#[local] Existing Instance types.

Definition ReadFile (path : string) (served : @Env types)
    : (string * option error) * @Env types :=
  if bool_decide (path = "model_only.yaml") then (("model: m2", None), served)
  else if bool_decide (path = "base_url_only.yaml")
  then (("base_url: http://h:1", None), served)
  else if bool_decide (path = "full.yaml") then (("full", None), served)
  else if bool_decide (path = "broken.yaml") then ((": :", None), served)
  else (("", Some (errorString ("open " +:+ path +:+ ": no such file or directory"))),
        served).

Definition Unmarshal (data : string) (config : @Config types)
    : @Config types * option error :=
  if bool_decide (data = "model: m2")
  then ({| Provider := Provider config; BaseURL := BaseURL config;
           Model := "m2"; Timeout := Timeout config;
           Options := Options config |}, None)
  else if bool_decide (data = "base_url: http://h:1")
  then ({| Provider := Provider config; BaseURL := "http://h:1";
           Model := Model config; Timeout := Timeout config;
           Options := Options config |}, None)
  else if bool_decide (data = "full")
  then ({| Provider := "custom"; BaseURL := "http://h:1"; Model := "m3";
           Timeout := 5 * Second; Options := Some {[ "k" := "v" ]} |}, None)
  else (config, Some (errorString "yaml: did not find expected key")).

Definition serve (client : http_Client) (req : @Request types)
    (served : @Env types) : (Response + error) * @Env types :=
  if bool_decide (Method req = "GET")
  then (inl {| StatusCode := 200; Body := "{}"; BodyReadErr := None;
               BodyCloseErr := None |}, S served)
  else match ReqBody req with
       | None => (inr (errorString "no body"), served)
       | Some body =>
           if bool_decide (body = "bad")
           then (inl {| StatusCode := 500; Body := "boom"; BodyReadErr := None;
                        BodyCloseErr := None |}, S served)
           else (inl {| StatusCode := 200; Body := body; BodyReadErr := None;
                        BodyCloseErr := None |}, S served)
       end.

Definition calls : @ExternalCalls types := {|
  os_Getenv := λ _ _, "";
  os_ReadFile := ReadFile;
  yaml_Unmarshal := Unmarshal;
  url_Parse := λ _, None;
  http_Do := serve;
  json_Marshal := λ reqData, (Req_Prompt reqData, None);
  json_Unmarshal := λ body,
    ({| Embedding := Some [Z.of_nat (String.length body); 0; 0; 0] |}, None);
|}.

#[local] Existing Instance calls.

Definition ctx : Context_ := tt.

Definition w0 : World := {| env := 0%nat; sent := []; logged := [] |}.

Definition e0 : OllamaEmbedder.t := {|
  OllamaEmbedder.baseURL := "http://localhost:11434";
  OllamaEmbedder.model := "qwen2.5:7b";
  OllamaEmbedder.httpClient := {| Client_Timeout := 30 * Second |};
  OllamaEmbedder.dimension := 4;
  OllamaEmbedder.logger := NewLogger "ollama-embedder";
|}.

(** Three texts, the last one refused by the server, and the error the
    primitive returns for it. *)
Definition failing_texts : list string := ["a"; "bc"; "bad"].

Definition cause : error :=
  wrapError "failed to embed text: HTTP 500: boom" (errorString "HTTP 500: boom").

(** A builder for provider "custom" with the model set to "m1". *)
Definition builder : EmbedderBuilder.t :=
  EmbedderBuilder.WithModel (New Globals_init "custom") "m1".

End Mock.


(** * Theorems *)

(** Run the outermost bind of the computation in the goal. *)
Ltac step_bind := unfold mbind at 1; unfold M_bind at 1.

(** ** The monad and the logger *)

Section Logging.
Context `{ExternalCalls}.

(** A call of the logger adds one line and nothing else. *)
Lemma log_eq (l : Logger.t) (level msg : string) (fields : list Field)
    (w : World) :
  ∃ line, Logger.log l level msg fields w = (tt, after_log w line).
Proof. unfold Logger.log, log_Println. eauto. Qed.

Lemma Info_world (l : Logger.t) (msg : string) (fields : list Field) (w : World) :
  ∃ line, Logger.Info l msg fields w = (tt, after_log w line).
Proof. apply log_eq. Qed.

End Logging.

(** ** The provider registry *)

Section Registry.
Context `{ExternalCalls}.

Lemma RegisterProvider_present (f : Factory.t) (name : string)
    (p p0 : ProviderFunc) (w : World) :
  Factory.providers f !! name = Some p0 →
  Factory.RegisterProvider f name p w = ((f, Some (duplicate_error name)), w).
Proof. intros Hin. unfold Factory.RegisterProvider. by rewrite Hin. Qed.

Lemma RegisterProvider_absent (f : Factory.t) (name : string)
    (p : ProviderFunc) (w : World) :
  Factory.providers f !! name = None →
  ∃ w', Factory.RegisterProvider f name p w
        = (({| Factory.providers := <[name := p]> (Factory.providers f);
               Factory.logger := Factory.logger f |}, None), w').
Proof.
  intros Hout.
  destruct (Info_world (Factory.logger f) "注册新provider"
              [Fields.String "name" name] w) as [line Hline].
  eexists. unfold Factory.RegisterProvider. rewrite Hout.
  unfold mbind, M_bind. cbn [Factory.logger]. rewrite Hline. reflexivity.
Qed.

(** After a call of [RegisterProvider] the name resolves to the constructor
    that was there before the call, or else to the one just supplied. *)
Lemma RegisterProvider_lookup (f : Factory.t) (name : string)
    (p : ProviderFunc) (w : World) :
  Factory.providers (Factory.RegisterProvider f name p w).1.1 !! name
  = Some (default p (Factory.providers f !! name)).
Proof.
  destruct (Factory.providers f !! name) as [p0|] eqn:Hf.
  - by rewrite (RegisterProvider_present _ _ _ p0).
  - destruct (RegisterProvider_absent f name p w Hf) as [w' ->].
    cbn. by rewrite lookup_insert_eq.
Qed.

Lemma Create_registered (g : Globals) (f : Factory.t) (name : string)
    (p : ProviderFunc) (w : World) :
  Factory.providers f !! name = Some p →
  ∃ line,
    Factory.Create g f name w
    = p {| Provider := name; BaseURL := BaseURL (DefaultConfig g);
           Model := Model (DefaultConfig g);
           Timeout := Timeout (DefaultConfig g);
           Options := Options (DefaultConfig g) |}
        (after_log w line).
Proof.
  intros Hin.
  destruct (Info_world (Factory.logger f) "创建嵌入服务"
              [Fields.String "provider" name] w) as [line Hline].
  exists line. unfold Factory.Create. rewrite Hin.
  unfold mbind, M_bind. rewrite Hline. reflexivity.
Qed.

Lemma Create_unregistered (g : Globals) (f : Factory.t) (name : string)
    (w : World) :
  Factory.providers f !! name = None →
  Factory.Create g f name w = ((None, Some (unknown_error name)), w).
Proof. intros Hout. unfold Factory.Create. by rewrite Hout. Qed.

Lemma CreateWithConfig_registered (f : Factory.t) (config : Config)
    (p : ProviderFunc) (w : World) :
  Factory.providers f !! Provider config = Some p →
  ∃ line,
    Factory.CreateWithConfig f config w
    = p config (after_log w line).
Proof.
  intros Hin.
  destruct (Info_world (Factory.logger f) "创建嵌入服务"
              [Fields.String "provider" (Provider config);
               Fields.String "model" (Model config)] w) as [line Hline].
  exists line. unfold Factory.CreateWithConfig. rewrite Hin.
  unfold mbind, M_bind. rewrite Hline. reflexivity.
Qed.

(** C1.  Registering a name twice on one registry: the second
    [RegisterProvider] call returns the duplicate-registration error and
    leaves the registry (and the world) as the first call left them; the
    name then resolves, through [Create] and [CreateWithConfig], to the first
    constructor registered for it: the one of the first call when that call
    succeeded, which it does exactly when the name was free. *)
Theorem RegisterProvider_twice (f : Factory.t) (n : string)
    (p1 p2 : ProviderFunc) (w : World) :
  let first := default p1 (Factory.providers f !! n) in
  let r1 := Factory.RegisterProvider f n p1 w in
  let r2 := Factory.RegisterProvider r1.1.1 n p2 r1.2 in
  r1.1.2 = (if Factory.providers f !! n is Some _
            then Some (duplicate_error n) else None)
  ∧ r2.1.2 = Some (duplicate_error n)
  ∧ Factory.providers r2.1.1 = Factory.providers r1.1.1
  ∧ r2.1.1 = r1.1.1
  ∧ r2.2 = r1.2
  ∧ Factory.providers r2.1.1 !! n = Some first
  ∧ (∀ g w', ∃ line,
       Factory.Create g r2.1.1 n w'
       = first {| Provider := n; BaseURL := BaseURL (DefaultConfig g);
                  Model := Model (DefaultConfig g);
                  Timeout := Timeout (DefaultConfig g);
                  Options := Options (DefaultConfig g) |}
           (after_log w' line))
  ∧ (∀ baseURL model timeout options w', ∃ line,
       let config := {| Provider := n; BaseURL := baseURL; Model := model;
                        Timeout := timeout; Options := options |} in
       Factory.CreateWithConfig r2.1.1 config w'
       = first config
           (after_log w' line)).
Proof.
  intros first r1 r2.
  pose proof (RegisterProvider_lookup f n p1 w) as Hfirst.
  fold r1 first in Hfirst.
  assert (Hr2 : r2 = ((r1.1.1, Some (duplicate_error n)), r1.2))
    by (apply (RegisterProvider_present _ _ _ first), Hfirst).
  rewrite Hr2. cbn [fst snd].
  split_and!; try done.
  - subst r1. destruct (Factory.providers f !! n) as [p0|] eqn:Hf.
    + by rewrite (RegisterProvider_present _ _ _ p0).
    + by destruct (RegisterProvider_absent f n p1 w Hf) as [w' ->].
  - intros g w'. by apply Create_registered.
  - intros baseURL model timeout options w'.
    by apply CreateWithConfig_registered.
Qed.

(** C7.  [Create(n)] on an unregistered name returns the unknown-provider
    error without touching the world; on a registered name it logs one line
    and returns what the registered constructor returns on the configuration
    that [DefaultConfig] holds, with [Provider] set to [n]. *)
Theorem Create_spec (g : Globals) (f : Factory.t) (n : string) (w : World) :
  match Factory.providers f !! n with
  | None => Factory.Create g f n w = ((None, Some (unknown_error n)), w)
  | Some constructor =>
      ∃ line,
        Factory.Create g f n w
        = constructor
            {| Provider := n; BaseURL := BaseURL (DefaultConfig g);
               Model := Model (DefaultConfig g);
               Timeout := Timeout (DefaultConfig g);
               Options := Options (DefaultConfig g) |}
            (after_log w line)
  end.
Proof.
  destruct (Factory.providers f !! n) as [p|] eqn:Hf.
  - by apply Create_registered.
  - by apply Create_unregistered.
Qed.

Lemma NewFactory_providers (w : World) :
  Factory.providers (NewFactory w).1 = {[ "ollama" := ollama_provider ]}.
Proof.
  unfold NewFactory, mbind, M_bind.
  destruct (RegisterProvider_absent
              {| Factory.providers := ∅;
                 Factory.logger := NewLogger "embedder-factory" |}
              "ollama" ollama_provider w) as [w' Hw']; [apply lookup_empty|].
  rewrite Hw'. reflexivity.
Qed.

(** C10.  The registry built by [NewFactory], in any world, has ["ollama"]
    registered: the name is in what [ListProviders] returns (in whatever
    order the map is iterated), registering ["ollama"] again fails with the
    duplicate-registration error and changes nothing, and [defaultFactory]
    is such a registry. *)
Theorem NewFactory_registers_ollama (w : World) :
  let f := (NewFactory w).1 in
  Factory.providers f !! "ollama" = Some ollama_provider
  ∧ (∀ l, l ≡ₚ Factory.ListProviders f → "ollama" ∈ l)
  ∧ (∀ p w', Factory.RegisterProvider f "ollama" p w'
             = ((f, Some (duplicate_error "ollama")), w'))
  ∧ defaultFactory (Package_init w).1 = f
  ∧ (∀ l, l ≡ₚ ListProviders (Package_init w).1 → "ollama" ∈ l)
  ∧ (∀ p w', (RegisterProvider (Package_init w).1 "ollama" p w').1
             = ((Package_init w).1, Some (duplicate_error "ollama"))).
Proof.
  intros f.
  assert (Hlook : Factory.providers f !! "ollama" = Some ollama_provider).
  { subst f. rewrite NewFactory_providers. apply lookup_singleton_eq. }
  assert (Hlist : ∀ l, l ≡ₚ Factory.ListProviders f → "ollama" ∈ l).
  { intros l ->. unfold Factory.ListProviders.
    apply list_elem_of_fmap. exists ("ollama", ollama_provider).
    split; [done|]. by apply elem_of_map_to_list. }
  assert (Hpkg : defaultFactory (Package_init w).1 = f).
  { subst f. unfold Package_init, mbind, M_bind.
    by destruct (NewFactory w). }
  split_and!; [done|done| | done | |].
  - intros p w'. by apply (RegisterProvider_present _ _ _ ollama_provider).
  - intros l. unfold ListProviders. rewrite Hpkg. apply Hlist.
  - intros p w'. unfold RegisterProvider, mbind, M_bind.
    rewrite Hpkg.
    rewrite (RegisterProvider_present _ _ _ ollama_provider) by done.
    cbn. rewrite <- Hpkg. by destruct (Package_init w).1.
Qed.

End Registry.

(** ** Configuration files and the builder *)

Section Configuration.
Context `{ExternalCalls}.

Lemma LoadConfig_read_error (g : Globals) (path : string) (w : World)
    (data : string) (err : error) (env' : Env) :
  os_ReadFile path (env w) = ((data, Some err), env') →
  LoadConfig g path w = ((None, Some err), after_read w env').
Proof.
  intros Hread. unfold LoadConfig, ReadFile, mbind, M_bind.
  by rewrite Hread.
Qed.

Lemma LoadConfig_parse_error (g : Globals) (path : string) (w : World)
    (data : string) (env' : Env) (config : Config) (err : error) :
  os_ReadFile path (env w) = ((data, None), env') →
  yaml_Unmarshal data zero_Config = (config, Some err) →
  LoadConfig g path w = ((None, Some err), after_read w env').
Proof.
  intros Hread Hparse. unfold LoadConfig, ReadFile, mbind, M_bind.
  by rewrite Hread, Hparse.
Qed.

Lemma LoadConfig_parsed (g : Globals) (path : string) (w : World)
    (data : string) (env' : Env) (parsed : Config) :
  os_ReadFile path (env w) = ((data, None), env') →
  yaml_Unmarshal data zero_Config = (parsed, None) →
  LoadConfig g path w
  = ((Some (with_defaults g parsed), None), after_read w env').
Proof.
  intros Hread Hparse. unfold LoadConfig, ReadFile, mbind, M_bind.
  rewrite Hread, Hparse. unfold mret, M_ret, after_read, with_defaults.
  do 3 f_equal.
  destruct parsed as [provider baseURL model timeout options]; cbn.
  repeat case_bool_decide; cbn; repeat case_bool_decide;
    simplify_eq/=; try done; by destruct options.
Qed.

(** C5.  With [DefaultConfig] as the package initialises it, a file that is
    read and parsed yields a configuration in which every field the parsed
    value leaves empty or zero holds the default ("ollama",
    "http://localhost:11434", "qwen2.5:7b", 30s, the empty map) and every
    other field holds the parsed value; so a file that gives only a model
    yields the default configuration with that model, and a file that gives
    all five fields yields its own values. *)
Theorem LoadConfig_backfills_defaults (path : string) (w : World)
    (data : string) (env' : Env) (parsed : Config) :
  os_ReadFile path (env w) = ((data, None), env') →
  yaml_Unmarshal data zero_Config = (parsed, None) →
  ∃ config,
    (LoadConfig Globals_init path w).1 = (Some config, None)
    ∧ Provider config
      = (if bool_decide (Provider parsed = "") then "ollama" else Provider parsed)
    ∧ BaseURL config
      = (if bool_decide (BaseURL parsed = "") then "http://localhost:11434"
         else BaseURL parsed)
    ∧ Model config
      = (if bool_decide (Model parsed = "") then "qwen2.5:7b" else Model parsed)
    ∧ Timeout config
      = (if bool_decide (Timeout parsed = 0) then 30 * Second else Timeout parsed)
    ∧ Options config
      = (if bool_decide (Options parsed = None) then Some ∅ else Options parsed)
    ∧ (∀ m, parsed = {| Provider := ""; BaseURL := ""; Model := m; Timeout := 0;
                        Options := None |} →
            m ≠ "" →
            config = {| Provider := Provider (DefaultConfig Globals_init);
                        BaseURL := BaseURL (DefaultConfig Globals_init);
                        Model := m;
                        Timeout := Timeout (DefaultConfig Globals_init);
                        Options := Options (DefaultConfig Globals_init) |})
    ∧ (Provider parsed ≠ "" → BaseURL parsed ≠ "" → Model parsed ≠ "" →
       Timeout parsed ≠ 0 → Options parsed ≠ None → config = parsed).
Proof.
  intros Hread Hparse. exists (with_defaults Globals_init parsed).
  rewrite (LoadConfig_parsed _ _ _ _ _ _ Hread Hparse).
  split_and!; try done.
  - cbn. case_bool_decide as Ho; [by rewrite Ho|]. by destruct (Options parsed).
  - intros m -> Hm. unfold with_defaults; cbn.
    rewrite (bool_decide_eq_false_2 (m = "")) by done. reflexivity.
  - intros Hp Hb Hm Ht Ho. unfold with_defaults.
    rewrite !bool_decide_eq_false_2 by done.
    destruct parsed as [provider baseURL model timeout [options|]]; done.
Qed.

Lemma EmbedderConfig_LoadConfig_eq (g : Globals) (c : EmbedderConfig.t)
    (path : string) (w : World) :
  EmbedderConfig.LoadConfig g c path w
  = match LoadConfig g path w with
    | ((_, Some err), w') => (Returns (c, Some err), w')
    | ((Some config, None), w') =>
        (Returns ({| EmbedderConfig.config := config |}, None), w')
    | ((None, None), w') =>
        (Panics "invalid memory address or nil pointer dereference", w')
    end.
Proof.
  unfold EmbedderConfig.LoadConfig, mbind, M_bind.
  by destruct (LoadConfig g path w) as [[[config|] [err|]] w'].
Qed.

(** C6, as amended.  [LoadConfig] on a builder either fails, returning the
    error of the read or of the parse and the builder as it was, or succeeds
    and replaces the whole configuration by the parsed one with defaults
    filled in; nothing of the earlier configuration remains, and a field the
    file leaves empty holds the default, not what a setter had put there.
    The call never panics. *)
Theorem Builder_LoadConfig_replaces (g : Globals) (b : EmbedderBuilder.t)
    (path : string) (w : World) :
  let '((data, read_err), env') := os_ReadFile path (env w) in
  match read_err with
  | Some err =>
      EmbedderBuilder.LoadConfig g b path w
      = (Returns (b, Some err), after_read w env')
  | None =>
      match yaml_Unmarshal data zero_Config with
      | (_, Some err) =>
          EmbedderBuilder.LoadConfig g b path w
          = (Returns (b, Some err), after_read w env')
      | (parsed, None) =>
          EmbedderBuilder.LoadConfig g b path w
          = (Returns
               ({| EmbedderBuilder.config :=
                     {| EmbedderConfig.config :=
                          {| Provider := if bool_decide (Provider parsed = "")
                                         then Provider (DefaultConfig g)
                                         else Provider parsed;
                             BaseURL := if bool_decide (BaseURL parsed = "")
                                        then BaseURL (DefaultConfig g)
                                        else BaseURL parsed;
                             Model := if bool_decide (Model parsed = "")
                                      then Model (DefaultConfig g)
                                      else Model parsed;
                             Timeout := if bool_decide (Timeout parsed = 0)
                                        then Timeout (DefaultConfig g)
                                        else Timeout parsed;
                             Options := if bool_decide (Options parsed = None)
                                        then Some ∅ else Options parsed |} |};
                   EmbedderBuilder.factory := EmbedderBuilder.factory b |},
                None),
             after_read w env')
      end
  end.
Proof.
  destruct (os_ReadFile path (env w)) as [[data [err|]] env'] eqn:Hread.
  - unfold EmbedderBuilder.LoadConfig, mbind, M_bind.
    rewrite EmbedderConfig_LoadConfig_eq.
    rewrite (LoadConfig_read_error _ _ _ _ _ _ Hread).
    by destruct b as [[c] f].
  - destruct (yaml_Unmarshal data zero_Config) as [parsed [err|]] eqn:Hparse.
    + unfold EmbedderBuilder.LoadConfig, mbind, M_bind.
      rewrite EmbedderConfig_LoadConfig_eq.
      rewrite (LoadConfig_parse_error _ _ _ _ _ _ _ Hread Hparse).
      by destruct b as [[c] f].
    + unfold EmbedderBuilder.LoadConfig, mbind, M_bind.
      rewrite EmbedderConfig_LoadConfig_eq.
      rewrite (LoadConfig_parsed _ _ _ _ _ _ Hread Hparse).
      unfold with_defaults. do 6 f_equal.
      case_bool_decide as Ho; [by rewrite Ho|]. by destruct (Options parsed).
Qed.

Lemma chain_Timeout (b : EmbedderBuilder.t) (c : fluent) :
  Timeout (EmbedderConfig.config (EmbedderBuilder.config (chain b c)))
  = Timeout (EmbedderConfig.config (EmbedderBuilder.config b)).
Proof. by destruct c. Qed.

(** C9.  [WithTimeout] returns the builder it was called on, for a value of
    any type; no chain of fluent calls changes the timeout, so a builder made
    by [New] keeps the timeout of [DefaultConfig], 30s as the package
    initialises it, until a file is loaded. *)
Theorem WithTimeout_is_noop :
  (∀ (T : Type) (timeout : T) (b : EmbedderBuilder.t),
     EmbedderBuilder.WithTimeout b timeout = b)
  ∧ (∀ (b : EmbedderBuilder.t) (cs : list fluent),
       Timeout (EmbedderConfig.config (EmbedderBuilder.config (foldl chain b cs)))
       = Timeout (EmbedderConfig.config (EmbedderBuilder.config b)))
  ∧ (∀ (g : Globals) (provider : string) (cs : list fluent),
       Timeout (EmbedderConfig.config
                  (EmbedderBuilder.config (foldl chain (New g provider) cs)))
       = Timeout (DefaultConfig g))
  ∧ (∀ (provider : string) (cs : list fluent),
       Timeout (EmbedderConfig.config
                  (EmbedderBuilder.config
                     (foldl chain (New Globals_init provider) cs)))
       = 30 * Second).
Proof.
  assert (Hchain : ∀ (b : EmbedderBuilder.t) (cs : list fluent),
      Timeout (EmbedderConfig.config (EmbedderBuilder.config (foldl chain b cs)))
      = Timeout (EmbedderConfig.config (EmbedderBuilder.config b))).
  { intros b cs. revert b.
    induction cs as [|c cs IH]; intros b; [done|].
    cbn [foldl]. by rewrite IH, chain_Timeout. }
  split_and!; [done|done| |].
  - intros g provider cs. by rewrite Hchain.
  - intros provider cs. by rewrite Hchain.
Qed.

End Configuration.

(** ** Strings and slices *)

Lemma append_assoc (s1 s2 s3 : string) : (s1 +:+ s2) +:+ s3 = s1 +:+ s2 +:+ s3.
Proof.
  induction s1 as [|a s1 IH]; [done|].
  change (String a ((s1 +:+ s2) +:+ s3) = String a (s1 +:+ s2 +:+ s3)).
  by rewrite IH.
Qed.

Lemma length_append (s1 s2 : string) :
  String.length (s1 +:+ s2) = (String.length s1 + String.length s2)%nat.
Proof.
  induction s1 as [|a s1 IH]; [done|].
  change (S (String.length (s1 +:+ s2))
          = S (String.length s1 + String.length s2)%nat).
  by rewrite IH.
Qed.

Lemma length_substring_0 (n : nat) (s : string) :
  (n ≤ String.length s)%nat → String.length (String.substring 0 n s) = n.
Proof.
  revert s. induction n as [|n IH]; intros [|a s] Hn; cbn in *; try done; try lia.
  rewrite IH; [done|lia].
Qed.

Lemma append_nil {A} (s : slice A) : append s [] = s.
Proof. destruct s as [l|]; cbn; [|done]. by rewrite app_nil_r. Qed.

Lemma append_append {A} (s : slice A) (xs ys : list A) :
  append (append s xs) ys = append s (xs ++ ys).
Proof.
  destruct s as [l|], xs as [|x xs], ys as [|y ys]; cbn;
    rewrite ?app_nil_r, <- ?app_assoc; done.
Qed.

Lemma len_cons {A} (x : A) (l : list A) : len (x :: l) = 1 + len l.
Proof. unfold len. cbn [length]. lia. Qed.

Lemma len_nonneg {A} (l : list A) : 0 ≤ len l.
Proof. unfold len. lia. Qed.

(** ** The text preview *)

Section Preview.
Context `{ExternalCalls}.

Lemma getTextPreview_short (e : OllamaEmbedder.t) (text : string) :
  (String.length text ≤ 50)%nat → OllamaEmbedder.getTextPreview e text = text.
Proof.
  intros Hlen. unfold OllamaEmbedder.getTextPreview.
  by rewrite bool_decide_eq_true_2.
Qed.

Lemma getTextPreview_long (e : OllamaEmbedder.t) (text : string) :
  (50 < String.length text)%nat →
  OllamaEmbedder.getTextPreview e text = String.substring 0 47 text +:+ "...".
Proof.
  intros Hlen. unfold OllamaEmbedder.getTextPreview.
  rewrite bool_decide_eq_false_2; [done|lia].
Qed.

Lemma getTextPreview_length (e : OllamaEmbedder.t) (text : string) :
  (String.length (OllamaEmbedder.getTextPreview e text) ≤ 50)%nat.
Proof.
  destruct (decide (String.length text ≤ 50)%nat) as [Hle|Hgt].
  - by rewrite getTextPreview_short.
  - rewrite getTextPreview_long by lia.
    rewrite length_append, length_substring_0 by lia. cbn. lia.
Qed.

End Preview.

(** ** Logging does not touch the environment or the requests *)

Section Respects.
Context `{ExternalCalls}.

Lemma same_io_refl (w : World) : same_io w w.
Proof. done. Qed.

Lemma same_io_sym (w1 w2 : World) : same_io w1 w2 → same_io w2 w1.
Proof. by intros [??]. Qed.

Lemma same_io_trans (w1 w2 w3 : World) :
  same_io w1 w2 → same_io w2 w3 → same_io w1 w3.
Proof. intros [??] [??]. split; congruence. Qed.

Lemma same_io_after_log (w : World) (line : string) : same_io (after_log w line) w.
Proof. done. Qed.

Lemma respects_ret {A} (a : A) : respects (mret a).
Proof. by intros w1 w2 Hw. Qed.

Lemma respects_bind {A B} (m : M A) (f : A → M B) :
  respects m → (∀ a, respects (f a)) → respects (m ≫= f).
Proof.
  intros Hm Hf w1 w2 Hw. unfold mbind, M_bind.
  destruct (Hm w1 w2 Hw) as [Hr Hw'].
  destruct (m w1) as [a1 w1'], (m w2) as [a2 w2']; cbn in *. subst a2.
  by apply Hf.
Qed.

Lemma respects_log_Println (line : string) : respects (log_Println line).
Proof. intros w1 w2 [Henv Hsent]. by unfold log_Println, same_io; cbn. Qed.

Lemma respects_Getenv (key : string) : respects (Getenv key).
Proof. intros w1 w2 [Henv Hsent]. unfold Getenv; cbn. by rewrite Henv. Qed.

Lemma respects_Do (client : http_Client) (req : Request) : respects (Do client req).
Proof.
  intros w1 w2 [Henv Hsent]. unfold Do, same_io. rewrite Henv, Hsent.
  by destruct (http_Do client req (env w2)).
Qed.

Lemma respects_log (l : Logger.t) (level msg : string) (fields : list Field) :
  respects (Logger.log l level msg fields).
Proof. apply respects_log_Println. Qed.

Lemma respects_Debug (l : Logger.t) (msg : string) (fields : list Field) :
  respects (Logger.Debug l msg fields).
Proof.
  apply respects_bind; [apply respects_Getenv|]. intros debug.
  case_bool_decide; [apply respects_log|apply respects_ret].
Qed.

Lemma Debug_same_io (l : Logger.t) (msg : string) (fields : list Field) (w : World) :
  same_io (Logger.Debug l msg fields w).2 w.
Proof.
  unfold Logger.Debug, Getenv, mbind, M_bind.
  by case_bool_decide.
Qed.

Lemma respects_closeResponse (e : OllamaEmbedder.t) (resp : Response) :
  respects (OllamaEmbedder.closeResponse e resp).
Proof.
  unfold OllamaEmbedder.closeResponse.
  destruct (BodyCloseErr resp); [apply respects_log|apply respects_ret].
Qed.

Lemma closeResponse_same_io (e : OllamaEmbedder.t) (resp : Response) (w : World) :
  same_io (OllamaEmbedder.closeResponse e resp w).2 w.
Proof.
  unfold OllamaEmbedder.closeResponse. by destruct (BodyCloseErr resp).
Qed.

Lemma respects_Health (e : OllamaEmbedder.t) (ctx : Context_) :
  respects (OllamaEmbedder.Health e ctx).
Proof.
  unfold OllamaEmbedder.Health.
  destruct (NewRequestWithContext _ _ _ _) as [req|err]; [|apply respects_ret].
  apply respects_bind; [apply respects_Do|].
  intros [resp|err]; [|apply respects_ret].
  apply respects_bind; [apply respects_closeResponse|].
  intros _. apply respects_ret.
Qed.

Lemma respects_makeRequest (e : OllamaEmbedder.t) (ctx : Context_) (url : string)
    (reqData : ollamaEmbedRequest) :
  respects (OllamaEmbedder.makeRequest e ctx url reqData).
Proof.
  unfold OllamaEmbedder.makeRequest.
  destruct (json_Marshal reqData) as [jsonData [err|]]; [apply respects_ret|].
  destruct (NewRequestWithContext _ _ _ _) as [req|err]; [|apply respects_ret].
  apply respects_bind; [apply respects_Do|].
  intros [resp|err]; [|apply respects_ret].
  apply respects_bind; [apply respects_closeResponse|].
  intros _. apply respects_ret.
Qed.

Lemma respects_embedSingle (e : OllamaEmbedder.t) (ctx : Context_) (text : string) :
  respects (OllamaEmbedder.embedSingle e ctx text).
Proof.
  unfold OllamaEmbedder.embedSingle.
  apply respects_bind; [apply respects_makeRequest|].
  intros [respData [err|]]; apply respects_ret.
Qed.

Lemma respects_invoke_in_order (e : OllamaEmbedder.t) (ctx : Context_)
    (texts : list string) :
  respects (invoke_in_order e ctx texts).
Proof.
  induction texts as [|text texts IH]; cbn [invoke_in_order];
    [apply respects_ret|].
  apply respects_bind; [apply respects_embedSingle|].
  intros [v [err|]]; [apply respects_ret|].
  apply respects_bind; [apply IH|].
  intros [vs err]. apply respects_ret.
Qed.

End Respects.

(** ** The single-item primitive *)

Section Primitive.
Context `{ExternalCalls}.
Implicit Types (e : OllamaEmbedder.t) (ctx : Context_) (w : World).

Lemma embed_request_eq e ctx text :
  embed_request e ctx text
  = Header_Set
      {| Method := "POST"; URL := OllamaEmbedder.baseURL e +:+ "/api/embeddings";
         ReqBody := Some (json_Marshal {| Req_Model := OllamaEmbedder.model e;
                                          Req_Prompt := text |}).1;
         Header := ∅; ReqCtx := ctx |}
      "Content-Type" "application/json".
Proof. unfold embed_request, Header_Set; cbn. by rewrite insert_empty. Qed.

(** A call of [makeRequest] that returns no error has sent its one request. *)
Lemma makeRequest_ok_sent e ctx url reqData w respData w' :
  OllamaEmbedder.makeRequest e ctx url reqData w = ((respData, None), w') →
  sent w'
  = sent w ++ [Header_Set {| Method := "POST"; URL := url;
                             ReqBody := Some (json_Marshal reqData).1;
                             Header := ∅; ReqCtx := ctx |}
                 "Content-Type" "application/json"].
Proof.
  unfold OllamaEmbedder.makeRequest, NewRequestWithContext.
  destruct (json_Marshal reqData) as [jsonData [err|]]; [by intros [=]|].
  destruct (url_Parse url) as [err|]; [by intros [=]|].
  unfold mbind, M_bind, Do.
  destruct (http_Do _ _ _) as [[resp|err] env']; [|by intros [=]].
  pose proof (closeResponse_same_io e resp
    {| env := env'; sent := sent w ++ [Header_Set {| Method := "POST"; URL := url;
                             ReqBody := Some jsonData;
                             Header := ∅; ReqCtx := ctx |}
                 "Content-Type" "application/json"]; logged := logged w |})
    as [_ Hsent].
  destruct (OllamaEmbedder.closeResponse e resp _) as [[] w1].
  intros [= _ <-]. exact Hsent.
Qed.

(** An invocation of the primitive that returns no error has sent exactly
    the embedding request for its text, and returns a non-nil vector. *)
Lemma embedSingle_ok e ctx text w v w' :
  OllamaEmbedder.embedSingle e ctx text w = ((v, None), w') →
  sent w' = sent w ++ [embed_request e ctx text] ∧ is_Some v.
Proof.
  unfold OllamaEmbedder.embedSingle, mbind, M_bind.
  destruct (OllamaEmbedder.makeRequest _ _ _ _ w) as [[respData [err|]] w1] eqn:Hm;
    [by intros [=]|].
  intros [= <- <-]. split; [|by eexists].
  rewrite embed_request_eq. by apply makeRequest_ok_sent in Hm.
Qed.

(** A health check that returns no error has sent exactly the version
    request. *)
Lemma Health_ok_sent e ctx w w' :
  OllamaEmbedder.Health e ctx w = (None, w') →
  sent w' = sent w ++ [health_request e ctx].
Proof.
  unfold OllamaEmbedder.Health, NewRequestWithContext.
  destruct (url_Parse _) as [err|]; [by intros [=]|].
  unfold mbind, M_bind, Do.
  destruct (http_Do _ _ _) as [[resp|err] env']; [|by intros [=]].
  pose proof (closeResponse_same_io e resp
    {| env := env'; sent := sent w ++ [health_request e ctx];
       logged := logged w |}) as [_ Hsent].
  unfold health_request in *.
  destruct (OllamaEmbedder.closeResponse e resp _) as [[] w1].
  intros [= _ <-]. exact Hsent.
Qed.

(** *** Invoking the primitive in order *)

Lemma invoke_in_order_app e ctx xs ys w :
  invoke_in_order e ctx (xs ++ ys) w
  = match invoke_in_order e ctx xs w with
    | ((vs, Some err), w1) => ((vs, Some err), w1)
    | ((vs, None), w1) =>
        let '((vs', err), w2) := invoke_in_order e ctx ys w1 in
        ((vs ++ vs', err), w2)
    end.
Proof.
  revert w. induction xs as [|x xs IH]; intros w.
  - cbn. by destruct (invoke_in_order e ctx ys w) as [[vs' err] w2].
  - cbn [app invoke_in_order]. unfold mbind, M_bind.
    destruct (OllamaEmbedder.embedSingle e ctx x w) as [[v [err|]] w0]; [done|].
    rewrite IH.
    destruct (invoke_in_order e ctx xs w0) as [[vs [err|]] w1]; cbn; [done|].
    by destruct (invoke_in_order e ctx ys w1) as [[vs' err'] w2].
Qed.

Lemma invoke_in_order_length e ctx texts w vs err w1 :
  invoke_in_order e ctx texts w = ((vs, err), w1) →
  match err with
  | None => length vs = length texts
  | Some _ => (length vs < length texts)%nat
  end.
Proof.
  revert w vs err w1. induction texts as [|text texts IH]; intros w vs err w1.
  - by intros [= <- <- _].
  - cbn [invoke_in_order]. unfold mbind, M_bind.
    destruct (OllamaEmbedder.embedSingle e ctx text w) as [[v [err0|]] w0].
    + intros [= <- <- _]. cbn. lia.
    + destruct (invoke_in_order e ctx texts w0) as [[vs' err'] w2] eqn:Hrest.
      intros [= <- <- _]. apply IH in Hrest.
      destruct err'; cbn; lia.
Qed.

Lemma invoke_in_order_ok_sent e ctx texts w vs w1 :
  invoke_in_order e ctx texts w = ((vs, None), w1) →
  sent w1 = sent w ++ (embed_request e ctx <$> texts).
Proof.
  revert w vs w1. induction texts as [|text texts IH]; intros w vs w1.
  - intros [= _ <-]. cbn. by rewrite app_nil_r.
  - cbn [invoke_in_order]. unfold mbind, M_bind.
    destruct (OllamaEmbedder.embedSingle e ctx text w) as [[v [err0|]] w0] eqn:Hone;
      [by intros [=]|].
    destruct (invoke_in_order e ctx texts w0) as [[vs' err'] w2] eqn:Hrest.
    intros [= _ -> <-]. apply IH in Hrest. apply embedSingle_ok in Hone as [Hone _].
    rewrite Hrest, Hone. cbn. by rewrite <- app_assoc.
Qed.

(** The [i]-th vector is what the primitive returns for the [i]-th text in
    the world left by the first [i] invocations. *)
Lemma invoke_in_order_ok_lookup e ctx texts w vs w1 (i : nat) (text : string) :
  invoke_in_order e ctx texts w = ((vs, None), w1) →
  texts !! i = Some text →
  ∃ v wi wi',
    invoke_in_order e ctx (take i texts) w = ((take i vs, None), wi)
    ∧ OllamaEmbedder.embedSingle e ctx text wi = ((v, None), wi')
    ∧ vs !! i = Some v.
Proof.
  intros Hall Hi.
  rewrite <- (take_drop_middle texts i text Hi) in Hall.
  rewrite invoke_in_order_app in Hall.
  destruct (invoke_in_order e ctx (take i texts) w) as [[vs1 [err|]] wi] eqn:Hpre;
    [done|].
  pose proof (invoke_in_order_length _ _ _ _ _ _ _ Hpre) as Hlen; cbn in Hlen.
  rewrite length_take_le in Hlen by (apply lookup_lt_Some in Hi; lia).
  cbn [invoke_in_order] in Hall. unfold mbind, M_bind in Hall.
  destruct (OllamaEmbedder.embedSingle e ctx text wi) as [[v [err|]] wi'] eqn:Hone;
    [done|].
  destruct (invoke_in_order e ctx (drop (S i) texts) wi') as [[vs2 err] w2].
  injection Hall as <- -> <-.
  exists v, wi, wi'. split_and!; [|done|].
  - by rewrite take_app_length' by done.
  - rewrite lookup_app_r by lia. by rewrite Hlen, Nat.sub_diag.
Qed.

(** The texts after the first failure play no part. *)
Lemma invoke_in_order_failure_take e ctx texts w vs err w1 :
  invoke_in_order e ctx texts w = ((vs, Some err), w1) →
  invoke_in_order e ctx (take (S (length vs)) texts) w = ((vs, Some err), w1).
Proof.
  intros Hall.
  pose proof (invoke_in_order_length _ _ _ _ _ _ _ Hall) as Hlen; cbn in Hlen.
  rewrite <- (take_drop (S (length vs)) texts) in Hall.
  rewrite invoke_in_order_app in Hall.
  destruct (invoke_in_order e ctx (take (S (length vs)) texts) w)
    as [[vs1 [err1|]] wi] eqn:Hpre; [done|].
  apply invoke_in_order_length in Hpre. rewrite length_take_le in Hpre by lia.
  destruct (invoke_in_order e ctx (drop (S (length vs)) texts) wi)
    as [[vs2 err2] w2].
  injection Hall as Hvs _ _.
  apply (f_equal length) in Hvs. rewrite length_app in Hvs. lia.
Qed.

End Primitive.

(** ** [Embed] *)

Section Embed.
Context `{ExternalCalls}.
Implicit Types (e : OllamaEmbedder.t) (ctx : Context_) (w : World).

(** The line [Embed] logs when the primitive fails. *)
Lemma Error_index_line e (i : Z) (text : string) (err : error) w :
  Logger.Error (OllamaEmbedder.logger e) "嵌入文本失败"
    [Fields.Error err; Fields.Int "index" i;
     Fields.String "text_preview" (OllamaEmbedder.getTextPreview e text)] w
  = (tt, after_log w (index_error_line e i text err)).
Proof.
  unfold Logger.Error, Logger.log, log_Println, after_log, index_error_line.
  do 4 f_equal. cbn.
  repeat case_bool_decide; try (exfalso; unfold len in *; cbn in *; lia).
  by rewrite !append_assoc.
Qed.

(** The loop of [Embed] against the invocations in order: it falls through
    with the vectors appended, or returns the indexed error after logging
    it. *)
Lemma Embed_range_spec e ctx texts (i : Z) acc w :
  OllamaEmbedder.Embed_range e ctx i texts acc w
  = match invoke_in_order e ctx texts w with
    | ((vs, None), w1) => (inl (append acc vs), w1)
    | ((vs, Some err), w1) =>
        (inr (None, Some (index_error (i + len vs) err)),
         after_log w1
           (index_error_line e (i + len vs) (texts !!! length vs) err))
    end.
Proof.
  revert i acc w. induction texts as [|text texts IH]; intros i acc w.
  - cbn. by rewrite append_nil.
  - cbn [OllamaEmbedder.Embed_range invoke_in_order]. unfold mbind, M_bind.
    destruct (OllamaEmbedder.embedSingle e ctx text w) as [[v [err|]] w0].
    + rewrite Error_index_line. cbn. by rewrite Z.add_0_r.
    + rewrite IH.
      destruct (invoke_in_order e ctx texts w0) as [[vs [err|]] w1]; cbn.
      * rewrite len_cons. by replace (i + 1 + len vs) with (i + (1 + len vs)) by lia.
      * by rewrite append_append.
Qed.

(** [Embed] against the invocations in order, up to the lines logged. *)
Lemma Embed_spec e ctx texts w :
  ∃ w', same_io w' (invoke_in_order e ctx texts w).2
    ∧ OllamaEmbedder.Embed e ctx texts w
      = (match (invoke_in_order e ctx texts w).1 with
         | (vs, None) => (Some vs, None)
         | (vs, Some err) => (None, Some (index_error (len vs) err))
         end, w').
Proof.
  unfold OllamaEmbedder.Embed. case_bool_decide as Hempty.
  - destruct texts; [|by rewrite len_cons in Hempty; pose proof (len_nonneg texts); lia].
    by exists w.
  - step_bind.
    pose proof (Debug_same_io (OllamaEmbedder.logger e) "开始嵌入文本"
                  [Fields.Int "count" (len texts)] w) as Hstart.
    destruct (Logger.Debug _ _ _ w) as [[] w0]; cbn in Hstart.
    step_bind.
    rewrite Embed_range_spec.
    destruct (respects_invoke_in_order e ctx texts w0 w Hstart) as [Hres Hio].
    destruct (invoke_in_order e ctx texts w0) as [[vs err] w1] eqn:Hrun.
    rewrite <- Hres. cbn in Hio |- *.
    destruct err as [err|].
    + eexists. split; [|by rewrite Z.add_0_l].
      eapply same_io_trans; [apply same_io_after_log|done].
    + unfold mbind, M_bind.
      pose proof (Debug_same_io (OllamaEmbedder.logger e) "文本嵌入完成"
                    [Fields.Int "count" (len (elems (append None vs)))] w1)
        as Hdone.
      destruct (Logger.Debug _ _ _ w1) as [[] w2]; cbn in Hdone.
      exists w2. split; [by eapply same_io_trans|].
      apply invoke_in_order_length in Hrun.
      destruct vs, texts; done.
Qed.

(** [Embed] on a failing run: the world it leaves ends with the logged line
    that carries the preview. *)
Lemma Embed_failure e ctx texts w vs err w1 :
  invoke_in_order e ctx texts w = ((vs, Some err), w1) →
  ∃ w1', same_io w1' w1
    ∧ OllamaEmbedder.Embed e ctx texts w
      = ((None, Some (index_error (len vs) err)),
         after_log w1' (index_error_line e (len vs) (texts !!! length vs) err)).
Proof.
  intros Hrun. unfold OllamaEmbedder.Embed. case_bool_decide as Hempty.
  - destruct texts; [done|].
    rewrite len_cons in Hempty. pose proof (len_nonneg texts). lia.
  - step_bind.
    pose proof (Debug_same_io (OllamaEmbedder.logger e) "开始嵌入文本"
                  [Fields.Int "count" (len texts)] w) as Hstart.
    destruct (Logger.Debug _ _ _ w) as [[] w0]; cbn in Hstart.
    step_bind.
    rewrite Embed_range_spec.
    destruct (respects_invoke_in_order e ctx texts w0 w Hstart) as [Hres Hio].
    rewrite Hrun in Hres, Hio.
    destruct (invoke_in_order e ctx texts w0) as [[vs0 err0] w1'].
    cbn in Hres, Hio. injection Hres as -> ->.
    exists w1'. split; [done|]. by rewrite Z.add_0_l.
Qed.

(** [Embed] returns no error exactly when every invocation of the primitive
    returns none. *)
Lemma Embed_succeeds_iff e ctx texts w :
  (OllamaEmbedder.Embed e ctx texts w).1.2 = None
  ↔ (invoke_in_order e ctx texts w).1.2 = None.
Proof.
  destruct (Embed_spec e ctx texts w) as (w' & _ & ->).
  by destruct (invoke_in_order e ctx texts w) as [[vs [err|]] w1].
Qed.

(** C2.  When the primitive, invoked on the texts in input order, returns a
    vector for each one, [Embed] returns exactly these vectors in that order
    with no error, having sent one embedding request per text, in input
    order: the [i]-th output is what the primitive returns for the [i]-th
    text in the world the first [i] invocations leave.  On the empty
    sequence [Embed] returns the empty, non-nil sequence and no error, and
    leaves the world as it was: no request is sent. *)
Theorem Embed_preserves_order e ctx (texts : list string)
    (vs : list (slice float32)) w w1 :
  invoke_in_order e ctx texts w = ((vs, None), w1) →
  (∃ w', OllamaEmbedder.Embed e ctx texts w = ((Some vs, None), w')
         ∧ env w' = env w1
         ∧ sent w' = sent w ++ (embed_request e ctx <$> texts))
  ∧ length vs = length texts
  ∧ (∀ (i : nat) (text : string),
       texts !! i = Some text →
       ∃ v wi wi',
         invoke_in_order e ctx (take i texts) w = ((take i vs, None), wi)
         ∧ OllamaEmbedder.embedSingle e ctx text wi = ((v, None), wi')
         ∧ vs !! i = Some v)
  ∧ (∀ w0, OllamaEmbedder.Embed e ctx [] w0 = ((Some [], None), w0)).
Proof.
  intros Hrun. split_and!.
  - destruct (Embed_spec e ctx texts w) as (w' & [Henv Hsent] & HEmbed).
    rewrite Hrun in Henv, Hsent, HEmbed. cbn in Henv, Hsent, HEmbed.
    exists w'. split_and!; [done|done|].
    rewrite Hsent. by eapply invoke_in_order_ok_sent.
  - by apply invoke_in_order_length in Hrun.
  - intros i text Hi. by eapply invoke_in_order_ok_lookup.
  - done.
Qed.

(** C4, as amended.  When the primitive, invoked on the texts in input order,
    first fails at index [i] with [err], [Embed] returns the nil sequence and
    an error that names [i] in its message and wraps [err]; the texts after
    index [i] play no part: the environment and the requests sent are those
    of the invocations up to index [i].  The preview of the failing text is
    not in the error: it is in the line logged last, and it is the text
    itself when that has at most 50 bytes, and its first 47 bytes followed by
    "..." otherwise. *)
Theorem Embed_fails_fast e ctx (texts : list string)
    (vs : list (slice float32)) (err : error) w w1 :
  invoke_in_order e ctx texts w = ((vs, Some err), w1) →
  let i := length vs in
  ∃ (text : string) w',
    texts !! i = Some text
    ∧ OllamaEmbedder.Embed e ctx texts w
      = ((None, Some (index_error (Z.of_nat i) err)), w')
    ∧ err_Error (index_error (Z.of_nat i) err)
      = "failed to embed text at index " +:+ pretty (Z.of_nat i) +:+ ": "
        +:+ err_Error err
    ∧ err_Unwrap (index_error (Z.of_nat i) err) = Some err
    ∧ env w' = env w1
    ∧ sent w' = sent w1
    ∧ invoke_in_order e ctx (take (S i) texts) w = ((vs, Some err), w1)
    ∧ last (logged w') = Some (index_error_line e (Z.of_nat i) text err)
    ∧ (String.length (OllamaEmbedder.getTextPreview e text) ≤ 50)%nat
    ∧ ((String.length text ≤ 50)%nat →
       OllamaEmbedder.getTextPreview e text = text)
    ∧ ((50 < String.length text)%nat →
       OllamaEmbedder.getTextPreview e text
       = String.substring 0 47 text +:+ "...").
Proof.
  intros Hrun i.
  pose proof (invoke_in_order_length _ _ _ _ _ _ _ Hrun) as Hlen; cbn in Hlen.
  destruct (lookup_lt_is_Some_2 texts i Hlen) as [text Htext].
  destruct (Embed_failure e ctx texts w vs err w1 Hrun) as (w1' & [Henv Hsent] & HEmbed).
  exists text. eexists. split_and!; [done|exact HEmbed|..].
  - unfold index_error, Errorf_w. cbn [err_Error]. by rewrite !append_assoc.
  - done.
  - done.
  - done.
  - by apply invoke_in_order_failure_take.
  - cbn [logged after_log]. rewrite last_snoc.
    by rewrite (list_lookup_total_correct _ _ _ Htext).
  - apply getTextPreview_length.
  - apply getTextPreview_short.
  - apply getTextPreview_long.
Qed.

End Embed.

(** ** Construction and the cached dimension *)

Section Construction.
Context `{ExternalCalls}.
Implicit Types (e : OllamaEmbedder.t) (ctx : Context_) (w : World).

Lemma do_call_receiver e (c : call) w : (do_call e c w).1 = e.
Proof.
  destruct c; unfold do_call, mbind, M_bind; try done.
  - by destruct (OllamaEmbedder.Embed e ctx texts w).
  - by destruct (OllamaEmbedder.EmbedSingle e ctx text w).
  - by destruct (OllamaEmbedder.BatchEmbed e ctx texts batchSize w).
  - by destruct (OllamaEmbedder.Health e ctx w).
Qed.

Lemma do_calls_receiver e (cs : list call) w : (do_calls e cs w).1 = e.
Proof.
  revert w. induction cs as [|c cs IH]; intros w; [done|].
  cbn [do_calls]. unfold mbind, M_bind.
  pose proof (do_call_receiver e c w) as Hc.
  destruct (do_call e c w) as [e' w']; cbn in Hc. subst e'. apply IH.
Qed.

(** C8.  A construction that succeeds has passed the health probe and has
    then invoked the primitive once, on the text "test": the requests it
    sent are the version request and that one embedding request.  The
    dimension of the backend is the length of the vector this invocation
    returned, and neither the dimension nor the model name changes through
    any later calls of the six interface methods, [Health] included, in any
    world (so also in one where the health check fails). *)
Theorem NewOllamaEmbedder_dimension (config : Config) w e w' :
  NewOllamaEmbedder config w = ((Some e, None), w') →
  ∃ (v : list float32) w1 w2,
    OllamaEmbedder.Health (prototype config) context_Background w = (None, w1)
    ∧ OllamaEmbedder.embedSingle (prototype config) context_Background "test" w1
      = ((Some v, None), w2)
    ∧ sent w' = sent w ++ [health_request e context_Background;
                           embed_request e context_Background "test"]
    ∧ env w' = env w2
    ∧ OllamaEmbedder.GetDimension e = len v
    ∧ OllamaEmbedder.GetModel e = Model config
    ∧ (∀ (cs : list call) w'',
         OllamaEmbedder.GetDimension (do_calls e cs w'').1 = len v
         ∧ OllamaEmbedder.GetModel (do_calls e cs w'').1 = Model config)
    ∧ (∀ ctx w'', (do_call e (call_Health ctx) w'').1 = e).
Proof.
  unfold NewOllamaEmbedder. fold (prototype config).
  step_bind.
  destruct (OllamaEmbedder.Health (prototype config) context_Background w)
    as [[err|] w1] eqn:Hhealth; [by intros [=]|].
  unfold OllamaEmbedder.detectDimension.
  step_bind.
  step_bind.
  destruct (OllamaEmbedder.embedSingle (prototype config) context_Background
              "test" w1) as [[v [err|]] w2] eqn:Hprobe; [by intros [=]|].
  step_bind.
  step_bind.
  match goal with
  | |- context [Logger.Debug ?l ?m ?f w2] =>
      pose proof (Debug_same_io l m f w2) as [Henv3 Hsent3]
  end.
  match goal with
  | |- context [Logger.Debug ?l ?m ?f w2] =>
      destruct (Logger.Debug l m f w2) as [[] w3]
  end.
  unfold mbind, M_bind, mret, M_ret.
  match goal with
  | |- context [Logger.Info ?l ?m ?f w3] =>
      destruct (log_eq l "INFO" m f w3) as [line Hline];
      unfold Logger.Info; rewrite Hline
  end.
  intros [= <- <-].
  destruct (embedSingle_ok _ _ _ _ _ _ Hprobe) as [Hsent2 [l ->]].
  apply Health_ok_sent in Hhealth as Hsent1.
  cbn in Henv3, Hsent3.
  exists l, w1, w2. split_and!; try done.
  - cbn [sent after_log]. rewrite Hsent3, Hsent2, Hsent1.
    by rewrite <- app_assoc.
  - intros cs w''. by rewrite do_calls_receiver.
  - intros ctx w''. apply do_call_receiver.
Qed.

End Construction.

(** ** Chunks *)

Section Chunks.
Context {A : Type}.
Implicit Types (l : list A) (n fuel : nat).

Lemma chunks_upto_nil fuel n : chunks_upto fuel n (@nil A) = [].
Proof. by destruct fuel. Qed.

Lemma chunks_upto_cons fuel n l :
  l ≠ [] → chunks_upto (S fuel) n l = take n l :: chunks_upto fuel n (drop n l).
Proof. by destruct l. Qed.

Lemma length_drop_lt n l : (1 ≤ n)%nat → l ≠ [] → (length (drop n l) < length l)%nat.
Proof.
  intros Hn Hl. rewrite length_drop. destruct l; [done|]. cbn. lia.
Qed.

Lemma concat_chunks_upto fuel n l :
  (1 ≤ n)%nat → (length l ≤ fuel)%nat → concat (chunks_upto fuel n l) = l.
Proof.
  intros Hn. revert l. induction fuel as [|fuel IH]; intros l Hfuel.
  - by destruct l; [|cbn in Hfuel; lia].
  - destruct (decide (l = [])) as [->|Hl]; [done|].
    rewrite chunks_upto_cons by done. cbn [concat].
    rewrite IH; [apply take_drop|].
    pose proof (length_drop_lt n l Hn Hl). lia.
Qed.

Lemma chunks_upto_sizes fuel n l :
  (1 ≤ n)%nat →
  Forall (λ c, (1 ≤ length c ≤ n)%nat) (chunks_upto fuel n l).
Proof.
  intros Hn. revert l. induction fuel as [|fuel IH]; intros l.
  - by destruct l.
  - destruct (decide (l = [])) as [->|Hl]; [done|].
    rewrite chunks_upto_cons by done. constructor; [|apply IH].
    rewrite length_take. destruct l; [done|]. cbn. lia.
Qed.

(** Every chunk but the last is full. *)
Lemma chunks_upto_full fuel n l (i : nat) (c : list A) :
  (1 ≤ n)%nat → (length l ≤ fuel)%nat →
  chunks_upto fuel n l !! i = Some c →
  (S i < length (chunks_upto fuel n l))%nat →
  length c = n.
Proof.
  intros Hn. revert l i. induction fuel as [|fuel IH]; intros l i Hfuel.
  - by destruct l.
  - destruct (decide (l = [])) as [->|Hl]; [done|].
    rewrite chunks_upto_cons by done.
    pose proof (length_drop_lt n l Hn Hl) as Hdrop.
    destruct i as [|i]; cbn [lookup list_lookup length].
    + intros [= <-] Hmore.
      destruct (chunks_upto fuel n (drop n l)) as [|c' cs'] eqn:Hrest;
        [cbn in Hmore; lia|].
      assert (drop n l ≠ []) as Hne.
      { intros Hnil. rewrite Hnil, chunks_upto_nil in Hrest. done. }
      rewrite length_take. apply Nat.min_l.
      destruct (decide (n ≤ length l)%nat); [done|].
      rewrite drop_ge in Hne by lia. done.
    + intros Hc Hmore. apply (IH (drop n l) i); [lia|done|lia].
Qed.

Lemma chunks_whole n l : l ≠ [] → (length l ≤ n)%nat → chunks n l = [l].
Proof.
  intros Hl Hn. unfold chunks. destruct l as [|x l]; [done|].
  cbn [length]. rewrite chunks_upto_cons by done.
  rewrite take_ge, drop_ge by done. by rewrite chunks_upto_nil.
Qed.

End Chunks.

(** ** [BatchEmbed] *)

Section Batch.
Context `{ExternalCalls}.
Implicit Types (e : OllamaEmbedder.t) (ctx : Context_) (w : World).

Lemma int_wrap_id (z : Z) : is_int z → int_wrap z = z.
Proof.
  unfold is_int, int_min, int_max, int_wrap. intros Hz.
  rewrite Z.mod_small; lia.
Qed.

(** [Embed] over the chunks of a list against the invocations in order over
    the list: the vectors are the same, and a failure carries the index
    within its chunk. *)
Lemma Embed_chunks_upto_spec e ctx (n : nat) (fuel : nat) (l : list string)
    (acc : slice (slice float32)) w :
  (1 ≤ n)%nat → (length l ≤ fuel)%nat →
  ∃ w', same_io w' (invoke_in_order e ctx l w).2
    ∧ Embed_chunks e ctx (chunks_upto fuel n l) acc w
      = (match (invoke_in_order e ctx l w).1 with
         | (vs, None) => (append acc vs, None)
         | (vs, Some err) =>
             (None, Some (index_error (len vs `mod` Z.of_nat n) err))
         end, w').
Proof.
  intros Hn. revert l acc w. induction fuel as [|fuel IH]; intros l acc w Hfuel.
  { destruct l; [|cbn in Hfuel; lia]. exists w. cbn. by rewrite append_nil. }
  destruct (decide (l = [])) as [->|Hl].
  { exists w. cbn. by rewrite append_nil. }
  rewrite chunks_upto_cons by done. cbn [Embed_chunks].
  unfold mbind, M_bind.
  destruct (Embed_spec e ctx (take n l) w) as (wc & Hwc & HEmbed).
  rewrite HEmbed. clear HEmbed.
  replace (invoke_in_order e ctx l w)
    with (invoke_in_order e ctx (take n l ++ drop n l) w)
    by (by rewrite take_drop).
  rewrite invoke_in_order_app.
  destruct (invoke_in_order e ctx (take n l) w) as [[vsc [errc|]] w1c] eqn:Hc;
    cbn [fst snd] in Hwc |- *.
  - exists wc. split; [done|].
    apply invoke_in_order_length in Hc. rewrite length_take in Hc.
    rewrite Z.mod_small; [done|]. unfold len. lia.
  - pose proof (length_drop_lt n l Hn Hl) as Hdrop.
    destruct (IH (drop n l) (append acc (elems (Some vsc))) wc) as (w' & Hw' & Hrest);
      [lia|].
    rewrite Hrest. clear Hrest.
    destruct (respects_invoke_in_order e ctx (drop n l) wc w1c Hwc) as [Hres Hio].
    rewrite Hres in *. clear Hres.
    destruct (invoke_in_order e ctx (drop n l) w1c) as [[vsr errr] w2] eqn:Hr.
    cbn [fst snd] in Hw', Hio |- *.
    exists w'. split; [by eapply same_io_trans|].
    destruct errr as [errr|]; cbn [elems].
    + apply invoke_in_order_length in Hc, Hr. rewrite length_take in Hc.
      rewrite length_drop in Hr.
      assert (length vsc = n) as Hfull by lia.
      do 4 f_equal. unfold len. rewrite length_app, Hfull.
      rewrite Nat2Z.inj_add, Z.add_comm.
      rewrite <- (Z.mul_1_l (Z.of_nat n)) at 2.
      by rewrite Z_mod_plus_full.
    + by rewrite append_append.
Qed.

Lemma BatchEmbed_for_S e ctx (fuel : nat) (texts : list string)
    (batchSize i : Z) (allEmbeddings : slice (slice float32)) :
  OllamaEmbedder.BatchEmbed_for (S fuel) e ctx texts batchSize i allEmbeddings
  = if bool_decide (i < len texts) then
      let end_ := int_add i batchSize in
      let end_ := if bool_decide (end_ > len texts) then len texts else end_ in
      match slice_expr texts i end_ with
      | None => mret (Panics "slice bounds out of range")
      | Some batch =>
          '(embeddings, err) ← OllamaEmbedder.Embed e ctx batch;
          match err with
          | Some err => mret (Returns (None, Some err))
          | None =>
              OllamaEmbedder.BatchEmbed_for fuel e ctx texts batchSize
                (int_add i batchSize) (append allEmbeddings (elems embeddings))
          end
      end
    else mret (Returns (allEmbeddings, None)).
Proof. done. Qed.

(** The loop of [BatchEmbed] is [Embed] over the chunks of the texts not yet
    processed; it neither panics nor runs out of fuel. *)
Lemma BatchEmbed_for_chunks e ctx (texts : list string) (batchSize : Z) :
  is_int batchSize → 1 ≤ batchSize → 2 * len texts ≤ int_max →
  ∀ (fuel : nat) (i : Z) (acc : slice (slice float32)) w,
    0 ≤ i → (i = 0 ∨ batchSize ≤ i) →
    (length (drop (Z.to_nat i) texts) ≤ fuel)%nat →
    OllamaEmbedder.BatchEmbed_for (S fuel) e ctx texts batchSize i acc w
    = (let '(r, w') := Embed_chunks e ctx
                         (chunks_upto fuel (Z.to_nat batchSize)
                            (drop (Z.to_nat i) texts)) acc w in
       (Returns r, w')).
Proof.
  intros Hint Hpos Hlen fuel.
  induction fuel as [|fuel IH]; intros i acc w Hi Hmult Hfuel.
  - rewrite BatchEmbed_for_S. rewrite length_drop in Hfuel.
    rewrite bool_decide_eq_false_2 by (unfold len; lia).
    rewrite drop_ge by lia. done.
  - rewrite BatchEmbed_for_S. case_bool_decide as Hlt.
    2:{ rewrite drop_ge by (unfold len in Hlt; lia). done. }
    assert (int_add i batchSize = i + batchSize) as Hadd.
    { apply int_wrap_id. unfold is_int, int_min, int_max in *. lia. }
    rewrite Hadd. cbv zeta.
    set (l := drop (Z.to_nat i) texts) in *.
    assert (length l = Z.to_nat (len texts - i)) as Hl.
    { unfold l, len. rewrite length_drop. lia. }
    assert (l ≠ []) as Hne.
    { intros Hnil. rewrite Hnil in Hl. cbn in Hl. lia. }
    rewrite chunks_upto_cons by done. cbn [Embed_chunks].
    assert (slice_expr texts i
              (if bool_decide (i + batchSize > len texts) then len texts
               else i + batchSize)
            = Some (take (Z.to_nat batchSize) l)) as ->.
    { unfold slice_expr.
      destruct (decide (i + batchSize > len texts)) as [Hend|Hend].
      - rewrite (bool_decide_eq_true_2 (i + batchSize > len texts)) by done.
        rewrite bool_decide_eq_true_2 by lia. f_equal. fold l.
        rewrite !take_ge by lia. done.
      - rewrite (bool_decide_eq_false_2 (i + batchSize > len texts)) by done.
        rewrite bool_decide_eq_true_2 by lia. f_equal. fold l.
        f_equal. lia. }
    unfold mbind, M_bind.
    destruct (OllamaEmbedder.Embed e ctx (take (Z.to_nat batchSize) l) w)
      as [[embeddings [err|]] wc]; [done|].
    rewrite IH; [|lia|lia|].
    + replace (drop (Z.to_nat (i + batchSize)) texts)
        with (drop (Z.to_nat batchSize) l); [done|].
      unfold l. rewrite drop_drop. f_equal. lia.
    + replace (drop (Z.to_nat (i + batchSize)) texts)
        with (drop (Z.to_nat batchSize) l).
      * pose proof (length_drop_lt (Z.to_nat batchSize) l ltac:(lia) Hne). lia.
      * unfold l. rewrite drop_drop. f_equal. lia.
Qed.

Lemma BatchEmbed_chunks e ctx (texts : list string) (batchSize : Z) w :
  is_int batchSize → 2 * len texts ≤ int_max →
  let size := if bool_decide (batchSize ≤ 0) then len texts else batchSize in
  OllamaEmbedder.BatchEmbed e ctx texts batchSize w
  = (let '(r, w') := Embed_chunks e ctx (chunks (Z.to_nat size) texts) None w in
     (Returns r, w')).
Proof.
  intros Hint Hlen size. unfold OllamaEmbedder.BatchEmbed. fold size.
  destruct (decide (texts = [])) as [->|Hne].
  { cbn. by rewrite bool_decide_eq_false_2 by (unfold len; cbn; lia). }
  assert (1 ≤ len texts) as Hone.
  { destruct texts; [done|]. rewrite len_cons. pose proof (len_nonneg texts). lia. }
  rewrite BatchEmbed_for_chunks.
  - done.
  - subst size. case_bool_decide; [|done].
    unfold is_int, int_min, int_max in *. pose proof (len_nonneg texts). lia.
  - subst size. case_bool_decide; lia.
  - done.
  - done.
  - by left.
  - rewrite length_drop. lia.
Qed.

End Batch.

Section BatchEquivalence.
Context `{ExternalCalls}.
Implicit Types (e : OllamaEmbedder.t) (ctx : Context_) (w : World).

(** C3, as amended.  For a batch size that is an [int] and texts whose
    doubled length is an [int], [BatchEmbed] is [Embed] run over the
    consecutive chunks of the texts, in order; the chunks have at most
    [batchSize] items, all but the last exactly [batchSize], and a
    [batchSize] of zero or less gives the one chunk of all texts.  The call
    returns (no panic, fuel suffices), leaves the environment and the
    requests as [Embed] on all texts does, and succeeds exactly when [Embed]
    does, with the same vectors element by element.  When the primitive
    fails, both return the nil sequence and wrap the primitive's error, but
    the index in the error of [BatchEmbed] is the index within the failing
    chunk (the index in the texts modulo the batch size), not the index in
    the texts.  With one chunk (a [batchSize] of zero or less, or one that
    covers all texts) the two errors are the same. *)
Theorem BatchEmbed_equals_Embed e ctx (texts : list string) (batchSize : Z) w :
  is_int batchSize →
  2 * len texts ≤ int_max →
  let size := if bool_decide (batchSize ≤ 0) then len texts else batchSize in
  let cs := chunks (Z.to_nat size) texts in
  concat cs = texts
  ∧ Forall (λ c, (1 ≤ length c ≤ Z.to_nat size)%nat) cs
  ∧ (∀ (i : nat) (c : list string),
       cs !! i = Some c → (S i < length cs)%nat → length c = Z.to_nat size)
  ∧ (batchSize ≤ 0 → cs = match texts with [] => [] | _ :: _ => [texts] end)
  ∧ OllamaEmbedder.BatchEmbed e ctx texts batchSize w
    = (let '(r, w') := Embed_chunks e ctx cs None w in (Returns r, w'))
  ∧ ∃ rB wB,
      OllamaEmbedder.BatchEmbed e ctx texts batchSize w = (Returns rB, wB)
      ∧ same_io wB (OllamaEmbedder.Embed e ctx texts w).2
      ∧ match (invoke_in_order e ctx texts w).1 with
        | (vs, None) =>
            (OllamaEmbedder.Embed e ctx texts w).1 = (Some vs, None)
            ∧ rB.2 = None ∧ elems rB.1 = vs
        | (vs, Some err) =>
            (OllamaEmbedder.Embed e ctx texts w).1
            = (None, Some (index_error (len vs) err))
            ∧ rB = (None, Some (index_error (len vs `mod` size) err))
        end
      ∧ (len texts ≤ size →
         elems rB.1 = elems (OllamaEmbedder.Embed e ctx texts w).1.1
         ∧ rB.2 = (OllamaEmbedder.Embed e ctx texts w).1.2).
Proof.
  intros Hint Hlen size cs.
  pose proof (len_nonneg texts) as Hnonneg.
  assert (texts ≠ [] → 1 ≤ size) as Hsize.
  { intros Hne. subst size. case_bool_decide; [|lia].
    destruct texts; [done|]. rewrite len_cons. pose proof (len_nonneg texts). lia. }
  assert (0 ≤ size) as Hsize0 by (subst size; case_bool_decide; lia).
  assert (HB := BatchEmbed_chunks e ctx texts batchSize w Hint Hlen).
  cbv zeta in HB. fold size in HB. fold cs in HB.
  destruct (decide (texts = [])) as [->|Hne].
  { subst cs. cbn. split_and!; try done.
    exists (None, None), w. split_and!; try done. }
  assert (texts ≠ [] → 1 ≤ len texts) as Hone.
  { destruct texts; [done|]. rewrite len_cons. pose proof (len_nonneg texts). lia. }
  specialize (Hsize Hne).
  split_and!.
  - apply concat_chunks_upto; lia.
  - apply chunks_upto_sizes; lia.
  - intros i c. apply chunks_upto_full; lia.
  - intros Hle. subst cs size. rewrite bool_decide_eq_true_2 by done.
    destruct texts as [|text texts]; [done|].
    apply chunks_whole; [done|]. unfold len. lia.
  - done.
  - rewrite HB.
    destruct (Embed_chunks_upto_spec e ctx (Z.to_nat size) (length texts) texts
                None w) as (wB & HwB & Hcs); [lia|lia|].
    fold (chunks (Z.to_nat size) texts) in Hcs. fold cs in Hcs.
    rewrite Hcs. rewrite Z2Nat.id by lia.
    destruct (Embed_spec e ctx texts w) as (wE & HwE & HE).
    rewrite HE. cbn [fst snd].
    eexists _, wB. split; [done|].
    split; [eapply same_io_trans; [done|by apply same_io_sym]|].
    destruct (invoke_in_order e ctx texts w) as [[vs [err|]] w1] eqn:Hrun;
      cbn [fst snd]; apply invoke_in_order_length in Hrun.
    + split; [done|]. intros Hcover. split; [done|].
      rewrite Z.mod_small; [done|]. unfold len in *. lia.
    + assert (elems (append None vs) = vs) as Helems
        by (destruct vs; [by destruct texts|done]).
      by split_and!.
Qed.

End BatchEquivalence.

(** * The theorems on the small backend *)

Section OnTheMock.
#[local] Existing Instance Mock.types.
#[local] Existing Instance Mock.calls.

(** The file "model_only.yaml" gives the default configuration with its
    model. *)
Lemma LoadConfig_backfills_defaults_witness :
  os_ReadFile "model_only.yaml" (env Mock.w0) = (("model: m2", None), 0%nat)
  ∧ yaml_Unmarshal "model: m2" zero_Config
    = ({| Provider := ""; BaseURL := ""; Model := "m2"; Timeout := 0;
          Options := None |}, None)
  ∧ ∃ config,
      (LoadConfig Globals_init "model_only.yaml" Mock.w0).1 = (Some config, None)
      ∧ config = {| Provider := "ollama"; BaseURL := "http://localhost:11434";
                    Model := "m2"; Timeout := 30 * Second;
                    Options := Some ∅ |}.
Proof.
  assert (os_ReadFile "model_only.yaml" (env Mock.w0)
          = (("model: m2", None), 0%nat)) as Hread by reflexivity.
  assert (yaml_Unmarshal "model: m2" zero_Config
          = ({| Provider := ""; BaseURL := ""; Model := "m2"; Timeout := 0;
                Options := None |}, None)) as Hparse by reflexivity.
  split; [exact Hread|]. split; [exact Hparse|].
  destruct (LoadConfig_backfills_defaults "model_only.yaml" Mock.w0
              "model: m2" 0%nat _ Hread Hparse)
    as (config & Hload & _ & _ & _ & _ & _ & Hmodel & _).
  exists config. split; [exact Hload|].
  apply (Hmodel "m2"); [reflexivity|discriminate].
Defined.

(** Two texts, both embedded. *)
Lemma Embed_preserves_order_witness :
  ∃ vs w1,
    invoke_in_order Mock.e0 Mock.ctx ["a"; "bc"] Mock.w0 = ((vs, None), w1)
    ∧ vs = [Some [1; 0; 0; 0]; Some [2; 0; 0; 0]]
    ∧ ∃ w', OllamaEmbedder.Embed Mock.e0 Mock.ctx ["a"; "bc"] Mock.w0
            = ((Some vs, None), w').
Proof.
  assert (∃ w1, invoke_in_order Mock.e0 Mock.ctx ["a"; "bc"] Mock.w0
                = (([Some [1; 0; 0; 0]; Some [2; 0; 0; 0]], None), w1))
    as [w1 Hrun] by (eexists; vm_compute; reflexivity).
  exists [Some [1; 0; 0; 0]; Some [2; 0; 0; 0]], w1.
  split; [exact Hrun|]. split; [reflexivity|].
  destruct (Embed_preserves_order Mock.e0 Mock.ctx ["a"; "bc"] _ Mock.w0 w1 Hrun)
    as [(w' & HEmbed & _) _].
  exists w'. exact HEmbed.
Defined.

(** The third text fails: the error names index 2. *)
Lemma Embed_fails_fast_witness :
  ∃ vs err w1,
    invoke_in_order Mock.e0 Mock.ctx ["a"; "bc"; "bad"; "d"] Mock.w0
    = ((vs, Some err), w1)
    ∧ length vs = 2%nat
    ∧ ∃ w', OllamaEmbedder.Embed Mock.e0 Mock.ctx ["a"; "bc"; "bad"; "d"] Mock.w0
            = ((None, Some (index_error 2 err)), w')
            ∧ length (sent w') = 3%nat.
Proof.
  assert (∃ w1, invoke_in_order Mock.e0 Mock.ctx ["a"; "bc"; "bad"; "d"] Mock.w0
                = (([Some [1; 0; 0; 0]; Some [2; 0; 0; 0]],
                    Some (wrapError "failed to embed text: HTTP 500: boom"
                            (errorString "HTTP 500: boom"))), w1)
                ∧ length (sent w1) = 3%nat)
    as (w1 & Hrun & Hsent) by (eexists; split; vm_compute; reflexivity).
  eexists _, _, w1. split; [exact Hrun|]. split; [reflexivity|].
  destruct (Embed_fails_fast Mock.e0 Mock.ctx _ _ _ Mock.w0 w1 Hrun)
    as (text & w' & _ & HEmbed & _ & _ & _ & Hsent' & _).
  exists w'. split; [exact HEmbed|]. rewrite Hsent'. exact Hsent.
Defined.

(** The error [Embed] returns for a failing text does not hold the preview of
    that text, neither in its own message nor in a message it wraps; the
    preview is in the line logged. *)
Lemma Embed_error_without_preview :
  ∃ err w',
    OllamaEmbedder.Embed Mock.e0 Mock.ctx Mock.failing_texts Mock.w0
    = ((None, Some err), w')
    ∧ OllamaEmbedder.getTextPreview Mock.e0 "bad" = "bad"
    ∧ err_Error err
      = "failed to embed text at index 2: failed to embed text: HTTP 500: boom"
    ∧ Forall (λ inner, contains (err_Error inner) "bad" = false) (err_chain err)
    ∧ last (logged w')
      = Some ("[ERROR] ollama-embedder: 嵌入文本失败 {error: failed to embed text: "
              +:+ "HTTP 500: boom, index: 2, text_preview: bad}").
Proof.
  eexists _, _. split; [vm_compute; reflexivity|].
  split; [reflexivity|]. split; [reflexivity|].
  split; [|vm_compute; reflexivity].
  repeat constructor.
Qed.

(** Construction against the small backend reports dimension 4, and keeps
    reporting it. *)
Lemma NewOllamaEmbedder_dimension_witness :
  ∃ w',
    NewOllamaEmbedder (DefaultConfig Globals_init) Mock.w0 = ((Some Mock.e0, None), w')
    ∧ length (sent w') = 2%nat
    ∧ ∀ (cs : list call) w'',
        OllamaEmbedder.GetDimension (do_calls Mock.e0 cs w'').1 = 4.
Proof.
  assert (∃ w', NewOllamaEmbedder (DefaultConfig Globals_init) Mock.w0
                = ((Some Mock.e0, None), w'))
    as (w' & Hnew) by (eexists; vm_compute; reflexivity).
  exists w'. split; [exact Hnew|].
  destruct (NewOllamaEmbedder_dimension (DefaultConfig Globals_init) Mock.w0 Mock.e0 w' Hnew)
    as (v & w1 & w2 & _ & _ & Hsent & _ & Hdim & _ & Hcalls & _).
  split.
  - rewrite Hsent. rewrite length_app. reflexivity.
  - intros cs w''. destruct (Hcalls cs w'') as [-> _]. symmetry. exact Hdim.
Defined.

(** Three texts in batches of two. *)
Lemma BatchEmbed_equals_Embed_witness :
  is_int 2
  ∧ 2 * len ["a"; "bc"; "def"] ≤ int_max
  ∧ chunks 2 ["a"; "bc"; "def"] = [["a"; "bc"]; ["def"]]
  ∧ ∃ rB wB,
      OllamaEmbedder.BatchEmbed Mock.e0 Mock.ctx ["a"; "bc"; "def"] 2 Mock.w0
      = (Returns rB, wB)
      ∧ same_io wB
          (OllamaEmbedder.Embed Mock.e0 Mock.ctx ["a"; "bc"; "def"] Mock.w0).2.
Proof.
  assert (is_int 2) as Hint by (unfold is_int, int_min, int_max; lia).
  assert (2 * len ["a"; "bc"; "def"] ≤ int_max) as Hlen
    by (unfold int_max, len; cbn; lia).
  split; [exact Hint|]. split; [exact Hlen|]. split; [reflexivity|].
  destruct (BatchEmbed_equals_Embed Mock.e0 Mock.ctx ["a"; "bc"; "def"] 2
              Mock.w0 Hint Hlen)
    as (_ & _ & _ & _ & _ & rB & wB & HB & Hio & _).
  exists rB, wB. split; [exact HB|exact Hio].
Defined.

(** With the third of three texts failing and batches of two, [Embed] names
    index 2 and [BatchEmbed] index 0: the two errors differ. *)
Lemma BatchEmbed_error_index_differs :
  is_int 2
  ∧ 2 * len Mock.failing_texts ≤ int_max
  ∧ (OllamaEmbedder.Embed Mock.e0 Mock.ctx Mock.failing_texts Mock.w0).1
    = (None, Some (index_error 2 Mock.cause))
  ∧ (OllamaEmbedder.BatchEmbed Mock.e0 Mock.ctx Mock.failing_texts 2 Mock.w0).1
    = Returns (None, Some (index_error 0 Mock.cause))
  ∧ (OllamaEmbedder.BatchEmbed Mock.e0 Mock.ctx Mock.failing_texts 2 Mock.w0).1
    ≠ Returns (OllamaEmbedder.Embed Mock.e0 Mock.ctx Mock.failing_texts Mock.w0).1.
Proof.
  assert ((OllamaEmbedder.Embed Mock.e0 Mock.ctx Mock.failing_texts Mock.w0).1
          = (None, Some (index_error 2 Mock.cause))) as HE
    by (vm_compute; reflexivity).
  assert ((OllamaEmbedder.BatchEmbed Mock.e0 Mock.ctx Mock.failing_texts 2
             Mock.w0).1
          = Returns (None, Some (index_error 0 Mock.cause))) as HB
    by (vm_compute; reflexivity).
  split_and!; [unfold is_int, int_min, int_max; lia
              |unfold int_max, len; cbn; lia|exact HE|exact HB|].
  rewrite HE, HB. vm_compute. intros [=].
Qed.

(** A model set on the builder is lost when a file that gives no model is
    loaded: the model is the default, not the one set; so is the provider
    given to [New]. *)
Lemma Builder_LoadConfig_drops_setter :
  Model (yaml_Unmarshal "base_url: http://h:1" zero_Config).1 = ""
  ∧ Provider (yaml_Unmarshal "base_url: http://h:1" zero_Config).1 = ""
  ∧ Model (EmbedderConfig.GetConfig (EmbedderBuilder.config Mock.builder)) = "m1"
  ∧ Provider (EmbedderConfig.GetConfig (EmbedderBuilder.config Mock.builder))
    = "custom"
  ∧ ∃ b',
      (EmbedderBuilder.LoadConfig Globals_init Mock.builder "base_url_only.yaml" Mock.w0).1
      = Returns (b', None)
      ∧ Model (EmbedderConfig.GetConfig (EmbedderBuilder.config b')) = "qwen2.5:7b"
      ∧ Model (EmbedderConfig.GetConfig (EmbedderBuilder.config b'))
        ≠ Model (EmbedderConfig.GetConfig (EmbedderBuilder.config Mock.builder))
      ∧ Provider (EmbedderConfig.GetConfig (EmbedderBuilder.config b')) = "ollama"
      ∧ BaseURL (EmbedderConfig.GetConfig (EmbedderBuilder.config b'))
        = "http://h:1".
Proof.
  split_and!; try reflexivity.
  eexists. split; [vm_compute; reflexivity|].
  split_and!; try reflexivity. vm_compute. intros [=].
Qed.

(** Loading a file is the way to a different timeout on a builder. *)
Example Builder_timeout_from_file :
  Timeout (EmbedderConfig.GetConfig (EmbedderBuilder.config Mock.builder))
  = 30 * Second
  ∧ ∃ b',
      (EmbedderBuilder.LoadConfig Globals_init Mock.builder "full.yaml" Mock.w0).1
      = Returns (b', None)
      ∧ Timeout (EmbedderConfig.GetConfig (EmbedderBuilder.config b'))
        = 5 * Second.
Proof.
  split; [reflexivity|].
  eexists. split; [vm_compute; reflexivity|reflexivity].
Qed.

End OnTheMock.

(** * More of the package *)

(** ** The registry *)

Section RegistryMore.
Context `{ExternalCalls}.

Lemma RegisterProvider_fresh_eq (f : Factory.t) (name : string)
    (p : ProviderFunc) (w : World) :
  Factory.providers f !! name = None →
  ∃ line,
    Factory.RegisterProvider f name p w
    = (({| Factory.providers := <[name := p]> (Factory.providers f);
           Factory.logger := Factory.logger f |}, None), after_log w line).
Proof.
  intros Hout.
  destruct (Info_world (Factory.logger f) "注册新provider"
              [Fields.String "name" name] w) as [line Hline].
  exists line. unfold Factory.RegisterProvider. rewrite Hout.
  unfold mbind, M_bind. cbn [Factory.logger]. rewrite Hline. reflexivity.
Qed.

(** X1.  [RegisterProvider] with a name that is not registered succeeds: it
    returns no error, logs one line, and the registry afterwards maps the
    name to the constructor given, maps every other name as before, and
    lists the names it listed before and the new one.  The logger of the
    factory is kept. *)
Theorem RegisterProvider_fresh (f : Factory.t) (name : string)
    (p : ProviderFunc) (w : World) :
  Factory.providers f !! name = None →
  ∃ f' line,
    Factory.RegisterProvider f name p w = ((f', None), after_log w line)
    ∧ Factory.providers f' !! name = Some p
    ∧ (∀ other, other ≠ name →
         Factory.providers f' !! other = Factory.providers f !! other)
    ∧ Factory.ListProviders f' ≡ₚ name :: Factory.ListProviders f
    ∧ Factory.logger f' = Factory.logger f.
Proof.
  intros Hout.
  destruct (RegisterProvider_fresh_eq f name p w Hout) as [line Hreg].
  eexists _, line. split; [exact Hreg|]. cbn.
  split_and!.
  - apply lookup_insert_eq.
  - intros other Hne. by apply lookup_insert_ne.
  - unfold Factory.ListProviders. cbn.
    by rewrite map_to_list_insert.
  - done.
Qed.

Lemma RegisterProvider_mono (f : Factory.t) (name : string)
    (p : ProviderFunc) (w : World) :
  Factory.providers f ⊆ Factory.providers (Factory.RegisterProvider f name p w).1.1.
Proof.
  destruct (Factory.providers f !! name) as [p0|] eqn:Hf.
  - by rewrite (RegisterProvider_present _ _ _ p0).
  - destruct (RegisterProvider_fresh_eq f name p w Hf) as [line ->]. cbn.
    by apply insert_subseteq.
Qed.

Lemma RegisterProvider_registered (f : Factory.t) (name : string)
    (p : ProviderFunc) (w : World) :
  is_Some (Factory.providers (Factory.RegisterProvider f name p w).1.1 !! name).
Proof. rewrite RegisterProvider_lookup. by eexists. Qed.

(** X2.  The registry only grows.  Over any run of [RegisterProvider]
    calls, whether they succeed or not, every name registered before stays
    registered with the constructor it had; every name a call was made for
    is registered afterwards; and a name registered afterwards was
    registered before or is the name of one of the calls. *)
Theorem register_all_grows (f : Factory.t)
    (regs : list (string * ProviderFunc)) (w : World) :
  let f' := (register_all f regs w).1 in
  Factory.providers f ⊆ Factory.providers f'
  ∧ (∀ name p, Factory.providers f !! name = Some p →
               Factory.providers f' !! name = Some p)
  ∧ (∀ name p, (name, p) ∈ regs → is_Some (Factory.providers f' !! name))
  ∧ (∀ name, is_Some (Factory.providers f' !! name) →
             is_Some (Factory.providers f !! name) ∨ name ∈ regs.*1).
Proof.
  revert f w. induction regs as [|[name p] regs IH]; intros f w f'.
  - subst f'. cbn. split_and!; try done.
    + intros name p Hin. by apply elem_of_nil in Hin.
    + intros name Hin. by left.
  - subst f'. cbn [register_all]. unfold mbind, M_bind.
    pose proof (RegisterProvider_mono f name p w) as Hmono.
    pose proof (RegisterProvider_registered f name p w) as Hreg.
    pose proof (RegisterProvider_lookup f name p w) as Hlook.
    assert (∀ other, other ≠ name →
              Factory.providers (Factory.RegisterProvider f name p w).1.1 !! other
              = Factory.providers f !! other) as Hother.
    { intros other Hne.
      destruct (Factory.providers f !! name) as [p0|] eqn:Hf.
      - by rewrite (RegisterProvider_present _ _ _ p0).
      - destruct (RegisterProvider_fresh_eq f name p w Hf) as [line ->]. cbn.
        by apply lookup_insert_ne. }
    destruct (Factory.RegisterProvider f name p w) as [[f1 err] w1].
    cbn [fst snd] in *.
    destruct (IH f1 w1) as (IH1 & IH2 & IH3 & IH4).
    assert (Factory.providers f ⊆ Factory.providers (register_all f1 regs w1).1)
      as Hsub by (etrans; done).
    split_and!.
    + done.
    + intros name' p' Hin. by eapply lookup_weaken.
    + intros name' p' [[= -> ->]|Hin]%elem_of_cons.
      * destruct Hreg as [q Hq]. exists q. by apply IH2.
      * by eapply IH3.
    + intros name' Hin. destruct (IH4 name' Hin) as [Hf1|Hregs].
      * destruct (decide (name' = name)) as [->|Hne].
        -- right. cbn. by left.
        -- left. by rewrite <- Hother.
      * right. cbn. by right.
Qed.

(** X3.  [ListProviders] returns, in some order, exactly the registered
    names: a name is in the result when and only when a constructor is
    registered for it, no name is listed twice, and there are as many names
    as entries in the registry. *)
Theorem ListProviders_exact (f : Factory.t) (l : list string) :
  l ≡ₚ Factory.ListProviders f →
  (∀ name, name ∈ l ↔ is_Some (Factory.providers f !! name))
  ∧ NoDup l
  ∧ length l = size (Factory.providers f).
Proof.
  intros Hperm. unfold Factory.ListProviders in Hperm. split_and!.
  - intros name. rewrite Hperm. split.
    + intros ([name' p] & -> & Hin)%list_elem_of_fmap.
      apply elem_of_map_to_list in Hin. by eexists.
    + intros [p Hp]. apply list_elem_of_fmap. exists (name, p).
      split; [done|]. by apply elem_of_map_to_list.
  - rewrite Hperm. apply NoDup_fst_map_to_list.
  - by rewrite Hperm, length_fmap, length_map_to_list.
Qed.

End RegistryMore.

(** ** The builder *)

Section BuilderMore.
Context `{ExternalCalls}.

Lemma CreateWithConfig_unregistered (f : Factory.t) (config : Config) (w : World) :
  Factory.providers f !! Provider config = None →
  Factory.CreateWithConfig f config w
  = ((None, Some (unknown_error (Provider config))), w).
Proof. intros Hout. unfold Factory.CreateWithConfig. by rewrite Hout. Qed.

(** X4.  [CreateWithConfig] looks the constructor up under the provider
    named in the configuration.  Without one it returns the error
    "unsupported provider: <name>", logs nothing and calls nothing; with
    one it logs one line and is then the constructor run on the
    configuration as given, unchanged. *)
Theorem CreateWithConfig_spec (f : Factory.t) (config : Config) (w : World) :
  match Factory.providers f !! Provider config with
  | None =>
      Factory.CreateWithConfig f config w
      = ((None, Some (unknown_error (Provider config))), w)
  | Some constructor =>
      ∃ line,
        Factory.CreateWithConfig f config w = constructor config (after_log w line)
  end.
Proof.
  destruct (Factory.providers f !! Provider config) as [p|] eqn:Hf.
  - by apply CreateWithConfig_registered.
  - by apply CreateWithConfig_unregistered.
Qed.

Lemma foldl_snoc {A B} (f : A → B → A) (a : A) (l : list B) (x : B) :
  foldl f a (l ++ [x]) = f (foldl f a l) x.
Proof. by rewrite foldl_app. Qed.

Lemma omap_snoc {A B} (f : A → option B) (l : list A) (x : A) :
  omap f (l ++ [x]) = omap f l ++ match f x with Some y => [y] | None => [] end.
Proof. rewrite omap_app. cbn. by destruct (f x). Qed.

Lemma chain_frame (b : EmbedderBuilder.t) (c : fluent) :
  Provider (builder_config (chain b c)) = Provider (builder_config b)
  ∧ EmbedderBuilder.factory (chain b c) = EmbedderBuilder.factory b.
Proof. by destruct c. Qed.

Lemma chain_all_frame (b : EmbedderBuilder.t) (cs : list fluent) :
  Provider (builder_config (foldl chain b cs)) = Provider (builder_config b)
  ∧ EmbedderBuilder.factory (foldl chain b cs) = EmbedderBuilder.factory b.
Proof.
  revert b. induction cs as [|c cs IH]; intros b; [done|].
  cbn [foldl]. destruct (IH (chain b c)) as [-> ->]. apply chain_frame.
Qed.

(** X5.  After any chain of [WithBaseURL], [WithModel], [WithTimeout] and
    [WithOption] calls on a builder, the provider, the timeout and the
    factory are the ones it started with; the base URL and the model are the
    argument of the last call that set them, or the initial value when no
    call did; each option key holds the value of the last [WithOption] for
    that key, or what it held before; and the option map is nil only if it
    was nil and no [WithOption] was called. *)
Theorem chain_last_write_wins (b : EmbedderBuilder.t) (cs : list fluent) :
  let b' := foldl chain b cs in
  Provider (builder_config b') = Provider (builder_config b)
  ∧ Timeout (builder_config b') = Timeout (builder_config b)
  ∧ EmbedderBuilder.factory b' = EmbedderBuilder.factory b
  ∧ BaseURL (builder_config b')
    = default (BaseURL (builder_config b)) (last (baseURLs_set cs))
  ∧ Model (builder_config b')
    = default (Model (builder_config b)) (last (models_set cs))
  ∧ (∀ key, option_of (builder_config b') key
            = match last (options_set key cs) with
              | Some value => Some value
              | None => option_of (builder_config b) key
              end)
  ∧ (Options (builder_config b') = None
     ↔ Options (builder_config b) = None ∧ ∀ key, options_set key cs = []).
Proof.
  induction cs as [|c cs IH] using rev_ind.
  - cbn. split_and!; try done. split; [by intros ?|by intros [? _]].
  - cbv zeta in *. rewrite foldl_snoc.
    destruct IH as (IHp & IHt & IHf & IHb & IHm & IHo & IHn).
    destruct (chain_frame (foldl chain b cs) c) as [Hcp Hcf].
    unfold baseURLs_set, models_set, options_set in *.
    unfold option_of, builder_config, EmbedderConfig.GetConfig in *.
    split_and!.
    + by rewrite Hcp.
    + by rewrite chain_Timeout.
    + by rewrite Hcf.
    + rewrite omap_snoc. destruct c; cbn; rewrite ?app_nil_r; try done.
      by rewrite last_snoc.
    + rewrite omap_snoc. destruct c; cbn; rewrite ?app_nil_r; try done.
      by rewrite last_snoc.
    + intros key'. rewrite omap_snoc. destruct c; cbn; rewrite ?app_nil_r; try apply IHo.
      cbn. case_bool_decide as Hk.
      * subst. rewrite last_snoc. by rewrite lookup_insert_eq.
      * rewrite app_nil_r. rewrite lookup_insert_ne by done.
        rewrite <- IHo. by destruct (Options _).
    + destruct c; cbn.
      1-3: (etrans; [exact IHn|]); split; intros [Hn Hall]; (split; [done|]);
           intros key'; specialize (Hall key'); rewrite omap_snoc in *; cbn in *;
           by rewrite ?app_nil_r in *.
      split; [done|]. intros [_ Hall]. specialize (Hall key).
      rewrite omap_snoc in Hall. cbn in Hall.
      rewrite bool_decide_eq_true_2 in Hall by done.
      by apply app_nil in Hall as [_ ?].
Qed.

(** X6.  [New(provider)] followed by any chain of setters and [Build]: the
    provider is still the one [New] was given, whatever the chain.  [Build]
    returns "unsupported provider: <provider>" without logging when the
    package registry has no constructor for it, and is otherwise, after one
    logged line, that constructor run on the configuration the chain left in
    the builder. *)
Theorem Build_after_chain (g : Globals) (pkg : Package) (provider : string)
    (cs : list fluent) (w : World) :
  let b := foldl chain (New g provider) cs in
  Provider (builder_config b) = provider
  ∧ match Factory.providers (defaultFactory pkg) !! provider with
    | None =>
        EmbedderBuilder.Build pkg b w = ((None, Some (unknown_error provider)), w)
    | Some constructor =>
        ∃ line,
          EmbedderBuilder.Build pkg b w
          = constructor (builder_config b) (after_log w line)
    end.
Proof.
  intros b.
  destruct (chain_all_frame (New g provider) cs) as [Hp Hf].
  fold b in Hp, Hf. cbn in Hp, Hf.
  split; [done|].
  unfold EmbedderBuilder.Build. rewrite Hf. cbn [deref].
  fold (builder_config b).
  destruct (Factory.providers (defaultFactory pkg) !! provider) as [p|] eqn:Hlook.
  - apply CreateWithConfig_registered. by rewrite Hp.
  - replace (unknown_error provider)
      with (unknown_error (Provider (builder_config b))) by (by rewrite Hp).
    apply CreateWithConfig_unregistered. by rewrite Hp.
Qed.

End BuilderMore.

(** ** The logger *)

Lemma append_empty_r (s : string) : s +:+ "" = s.
Proof.
  induction s as [|a s IH]; [done|].
  change (String a (s +:+ "") = String a s). by rewrite IH.
Qed.

Lemma log_range_later (i : Z) (fields : list Field) (logMsg : string) :
  0 < i →
  Logger.log_range i fields logMsg
  = logMsg +:+ match fields with
               | [] => ""
               | _ :: _ => ", " +:+ Join (field_text <$> fields) ", "
               end.
Proof.
  revert i logMsg. induction fields as [|field fields IH]; intros i logMsg Hi.
  - cbn. by rewrite append_empty_r.
  - cbn [Logger.log_range]. rewrite bool_decide_eq_true_2 by lia.
    rewrite IH by lia. unfold field_text.
    destruct fields as [|field' fields]; cbn [fmap list_fmap Join].
    + by rewrite ?append_empty_r, ?append_assoc.
    + by rewrite !append_assoc.
Qed.

Lemma log_range_first (fields : list Field) (logMsg : string) :
  Logger.log_range 0 fields logMsg
  = logMsg +:+ Join (field_text <$> fields) ", ".
Proof.
  destruct fields as [|field fields].
  - cbn. by rewrite append_empty_r.
  - cbn [Logger.log_range]. rewrite bool_decide_eq_false_2 by lia.
    rewrite log_range_later by lia. unfold field_text.
    destruct fields as [|field' fields]; cbn [fmap list_fmap Join].
    + by rewrite ?append_empty_r, ?append_assoc.
    + by rewrite !append_assoc.
Qed.

Section LoggerMore.
Context `{ExternalCalls}.

(** X7.  [log] writes exactly one line and touches nothing else.  The line
    is "[LEVEL] name: msg", followed, when there are fields, by the fields
    as "key: value" joined by ", " inside " {" and "}". *)
Theorem log_writes_line (l : Logger.t) (level msg : string)
    (fields : list Field) (w : World) :
  Logger.log l level msg fields w
  = (tt, after_log w (log_line (Logger.name l) level msg fields)).
Proof.
  unfold Logger.log, log_Println, after_log, log_line. do 4 f_equal.
  destruct fields as [|field fields].
  - rewrite bool_decide_eq_false_2 by (unfold len; cbn; lia).
    by rewrite ?append_empty_r, ?append_assoc.
  - rewrite bool_decide_eq_true_2 by (unfold len; cbn [length]; lia).
    rewrite log_range_first. by rewrite ?append_assoc.
Qed.

End LoggerMore.

(** ** The transport of the Ollama backend *)

Section OllamaMore.
Context `{ExternalCalls}.
Implicit Types (e : OllamaEmbedder.t) (ctx : Context_) (w : World).

(** [Health] when the URL parses: one request, then the status decides. *)
Lemma Health_cases e ctx w :
  OllamaEmbedder.Health e ctx w
  = match url_Parse (OllamaEmbedder.baseURL e +:+ "/api/version") with
    | Some err => (Some err, w)
    | None =>
        let '(answer, env') :=
          http_Do (OllamaEmbedder.httpClient e) (health_request e ctx) (env w) in
        let w1 := {| env := env'; sent := sent w ++ [health_request e ctx];
                     logged := logged w |} in
        match answer with
        | inr err => (Some err, w1)
        | inl resp =>
            (if bool_decide (StatusCode resp ≠ 200)
             then Some (health_status_error (StatusCode resp)) else None,
             (OllamaEmbedder.closeResponse e resp w1).2)
        end
    end.
Proof.
  unfold OllamaEmbedder.Health, NewRequestWithContext.
  destruct (url_Parse _) as [err|]; [done|].
  unfold mbind, M_bind, Do. fold (health_request e ctx).
  destruct (http_Do _ _ _) as [[resp|err] env']; [|done].
  by destruct (OllamaEmbedder.closeResponse e resp _) as [[] w2].
Qed.


(** [embedSingle], case by case. *)
Lemma embedSingle_cases e ctx text w :
  OllamaEmbedder.embedSingle e ctx text w
  = match json_Marshal {| Req_Model := OllamaEmbedder.model e;
                          Req_Prompt := text |} with
    | (_, Some err) => ((None, Some (Errorf_w "failed to embed text: " err)), w)
    | (_, None) =>
        match url_Parse (OllamaEmbedder.baseURL e +:+ "/api/embeddings") with
        | Some err =>
            ((None, Some (Errorf_w "failed to embed text: " err)), w)
        | None =>
            let '(answer, env') :=
              http_Do (OllamaEmbedder.httpClient e) (embed_request e ctx text)
                (env w) in
            let w1 := {| env := env';
                         sent := sent w ++ [embed_request e ctx text];
                         logged := logged w |} in
            let w2 := match answer with
                      | inl resp => (OllamaEmbedder.closeResponse e resp w1).2
                      | inr _ => w1
                      end in
            match decode_answer answer with
            | (_, Some err) =>
                ((None, Some (Errorf_w "failed to embed text: " err)), w2)
            | (respData, None) =>
                ((Some (narrow <$> elems (Embedding respData)), None), w2)
            end
        end
    end.
Proof.
  unfold OllamaEmbedder.embedSingle, OllamaEmbedder.makeRequest,
    NewRequestWithContext.
  rewrite embed_request_eq.
  destruct (json_Marshal _) as [jsonData [err|]]; [done|]. cbn [fst].
  destruct (url_Parse _) as [err|]; [done|].
  unfold mbind, M_bind, Do.
  destruct (http_Do _ _ _) as [[resp|err] env']; [|done].
  destruct (OllamaEmbedder.closeResponse e resp _) as [[] w2].
  unfold decode_answer, http_status_error, mret, M_ret. cbn [snd].
  case_bool_decide; [done|].
  destruct (BodyReadErr resp); [done|].
  by destruct (json_Unmarshal (Body resp)) as [respData [err|]].
Qed.

(** At most the one embedding request is sent by an invocation. *)
Lemma embedSingle_sent e ctx text w :
  sent (OllamaEmbedder.embedSingle e ctx text w).2 = sent w
  ∨ sent (OllamaEmbedder.embedSingle e ctx text w).2
    = sent w ++ [embed_request e ctx text].
Proof.
  rewrite embedSingle_cases.
  destruct (json_Marshal _) as [jsonData [err|]]; [by left|].
  destruct (url_Parse _) as [err|]; [by left|].
  destruct (http_Do _ _ _) as [[resp|err] env'].
  - pose proof (closeResponse_same_io e resp
      {| env := env'; sent := sent w ++ [embed_request e ctx text];
         logged := logged w |}) as [_ Hsent].
    right. by destruct (decode_answer _) as [respData [err|]].
  - right. by destruct (decode_answer _) as [respData [err'|]].
Qed.

(** X9.  [embedSingle] returns a vector (not nil) when and only when it
    returns no error; every error it returns wraps its cause with the
    prefix "failed to embed text: "; and it sends at most the one embedding
    request for its text. *)
Theorem embedSingle_result e ctx text w :
  let r := (OllamaEmbedder.embedSingle e ctx text w).1 in
  (is_Some r.1 ↔ r.2 = None)
  ∧ match r.2 with
    | None => True
    | Some err =>
        ∃ cause, err_Unwrap err = Some cause
                 ∧ err_Error err = "failed to embed text: " +:+ err_Error cause
    end
  ∧ (sent (OllamaEmbedder.embedSingle e ctx text w).2 = sent w
     ∨ sent (OllamaEmbedder.embedSingle e ctx text w).2
       = sent w ++ [embed_request e ctx text]).
Proof.
  intros r. split_and!; [| |apply embedSingle_sent].
  - subst r. rewrite embedSingle_cases.
    destruct (json_Marshal _) as [jsonData [err|]]; [by split; [intros [??]|]|].
    destruct (url_Parse _) as [err|]; [by split; [intros [??]|]|].
    destruct (http_Do _ _ _) as [answer env'].
    destruct (decode_answer answer) as [respData [err|]]; cbn.
    + by split; [intros [??]|].
    + by split; [|eexists].
  - subst r. rewrite embedSingle_cases.
    destruct (json_Marshal _) as [jsonData [err|]]; [by eexists|].
    destruct (url_Parse _) as [err|]; [by eexists|].
    destruct (http_Do _ _ _) as [answer env'].
    destruct (decode_answer answer) as [respData [err|]]; cbn; [by eexists|done].
Qed.


End OllamaMore.

(** ** More on [Embed] *)

Section EmbedMore.
Context `{ExternalCalls}.
Implicit Types (e : OllamaEmbedder.t) (ctx : Context_) (w : World).

(** The invocations in order send the embedding requests of a prefix of the
    texts: all of them when none fails, else those before the failing text
    and possibly the one of the failing text. *)
Lemma invoke_in_order_sent e ctx texts w :
  ∃ k : nat,
    sent (invoke_in_order e ctx texts w).2
    = sent w ++ (embed_request e ctx <$> take k texts)
    ∧ (k ≤ length texts)%nat
    ∧ (length (invoke_in_order e ctx texts w).1.1 ≤ k)%nat
    ∧ (k ≤ S (length (invoke_in_order e ctx texts w).1.1))%nat
    ∧ ((invoke_in_order e ctx texts w).1.2 = None → k = length texts).
Proof.
  revert w. induction texts as [|text texts IH]; intros w.
  - exists 0%nat. cbn. rewrite app_nil_r. split_and!; try done; lia.
  - cbn [invoke_in_order]. unfold mbind, M_bind.
    pose proof (embedSingle_sent e ctx text w) as Hone.
    destruct (OllamaEmbedder.embedSingle e ctx text w) as [[v [err|]] w0]
      eqn:Hrun; cbn [fst snd] in *.
    + destruct Hone as [Hone|Hone].
      * exists 0%nat. cbn. rewrite app_nil_r. split_and!; try done; lia.
      * exists 1%nat. cbn. rewrite take_0. split_and!; try done; lia.
    + apply embedSingle_ok in Hrun as [Hw0 _].
      destruct (IH w0) as (k & Hsent & Hk1 & Hk2 & Hk3 & Hk4).
      destruct (invoke_in_order e ctx texts w0) as [[vs err] w1];
        unfold mret, M_ret; cbn [fst snd] in *.
      exists (S k). cbn [take fmap list_fmap length].
      rewrite Hsent, Hw0, <- app_assoc. split_and!; try done; try lia.
      intros Herr. by rewrite Hk4.
Qed.

(** X11.  The requests [Embed] sends are the embedding requests of a prefix
    of the texts, in the order of the texts, added after those sent before;
    when [Embed] returns no error the prefix is all the texts, one request
    each. *)
Theorem Embed_sends_prefix e ctx (texts : list string) w :
  ∃ k : nat,
    (k ≤ length texts)%nat
    ∧ sent (OllamaEmbedder.Embed e ctx texts w).2
      = sent w ++ (embed_request e ctx <$> take k texts)
    ∧ ((OllamaEmbedder.Embed e ctx texts w).1.2 = None → k = length texts).
Proof.
  destruct (Embed_spec e ctx texts w) as (w' & [_ Hsent] & HEmbed).
  destruct (invoke_in_order_sent e ctx texts w) as (k & Hk & Hlen & _ & _ & Hall).
  exists k. rewrite HEmbed. cbn [fst snd]. split_and!; [done|congruence|].
  destruct (invoke_in_order e ctx texts w) as [[vs [err|]] w1]; cbn in *;
    [done|auto].
Qed.




End EmbedMore.

(** ** Construction *)

Lemma substring_0_append (s t : string) :
  String.substring 0 (String.length s) (s +:+ t) = s.
Proof.
  induction s as [|a s IH]; [by destruct t|].
  change (String a (String.substring 0 (String.length s) (s +:+ t)) = String a s).
  by rewrite IH.
Qed.

Lemma substring_0_all (t : string) :
  String.substring 0 (String.length t) t = t.
Proof.
  induction t as [|a t IH]; [done|].
  change (String a (String.substring 0 (String.length t) t) = String a t).
  by rewrite IH.
Qed.

Lemma substring_skip_append (s t : string) :
  String.substring (String.length s) (String.length t) (s +:+ t) = t.
Proof.
  induction s as [|a s IH]; [apply substring_0_all|].
  exact IH.
Qed.

Lemma has_suffix_append (s suffix : string) : has_suffix (s +:+ suffix) suffix = true.
Proof.
  unfold has_suffix. rewrite length_append.
  rewrite bool_decide_eq_true_2 by lia. cbn [andb].
  apply bool_decide_eq_true_2.
  replace (String.length s + String.length suffix - String.length suffix)%nat
    with (String.length s) by lia.
  apply substring_skip_append.
Qed.

(** [TrimSuffix] takes a suffix off again. *)
Lemma TrimSuffix_append (s suffix : string) : TrimSuffix (s +:+ suffix) suffix = s.
Proof.
  unfold TrimSuffix. rewrite has_suffix_append, length_append.
  replace (String.length s + String.length suffix - String.length suffix)%nat
    with (String.length s) by lia.
  apply substring_0_append.
Qed.

Section ConstructionMore.
Context `{ExternalCalls}.
Implicit Types (e : OllamaEmbedder.t) (ctx : Context_) (w : World).

(** [NewOllamaEmbedder], case by case. *)
Lemma NewOllamaEmbedder_cases (config : Config) w :
  NewOllamaEmbedder config w
  = match OllamaEmbedder.Health (prototype config) context_Background w with
    | (Some err, w1) =>
        ((None, Some (Errorf_w "failed to connect to Ollama: " err)), w1)
    | (None, w1) =>
        match OllamaEmbedder.embedSingle (prototype config) context_Background
                "test" w1 with
        | ((_, Some err), w2) =>
            ((None,
              Some (Errorf_w "failed to detect embedding dimension: " err)), w2)
        | ((v, None), w2) =>
            let e := with_dimension (prototype config) (len (elems v)) in
            ((Some e, None),
             (Logger.Info (NewLogger "ollama-embedder") "Ollama嵌入服务初始化成功"
                [Fields.String "base_url" (BaseURL config);
                 Fields.String "model" (Model config);
                 Fields.Int "dimension" (len (elems v))]
                (Logger.Debug (NewLogger "ollama-embedder") "检测到嵌入维度"
                   [Fields.Int "dimension" (len (elems v))] w2).2).2)
        end
    end.
Proof.
  unfold NewOllamaEmbedder. fold (prototype config).
  step_bind.
  destruct (OllamaEmbedder.Health (prototype config) context_Background w)
    as [[err|] w1]; [done|].
  unfold OllamaEmbedder.detectDimension.
  step_bind. step_bind.
  destruct (OllamaEmbedder.embedSingle (prototype config) context_Background
              "test" w1) as [[v [err|]] w2]; [done|].
  step_bind. step_bind.
  fold (with_dimension (prototype config) (len (elems v))).
  cbn [OllamaEmbedder.logger OllamaEmbedder.dimension with_dimension prototype].
  destruct (Logger.Debug _ _ _ w2) as [[] w3].
  unfold mbind, M_bind, mret, M_ret. cbn [snd].
  by destruct (Logger.Info _ _ _ w3) as [[] w4].
Qed.

(** [Health] sends at most the version request. *)
Lemma Health_sent e ctx w :
  sent (OllamaEmbedder.Health e ctx w).2 = sent w
  ∨ sent (OllamaEmbedder.Health e ctx w).2 = sent w ++ [health_request e ctx].
Proof.
  rewrite Health_cases.
  destruct (url_Parse _) as [perr|]; [by left|].
  destruct (http_Do _ _ _) as [[resp|err] env']; [|by right].
  right. apply closeResponse_same_io.
Qed.

(** X14.  [NewOllamaEmbedder] returns an embedder when and only when it
    returns no error.  When the health check fails it returns "failed to
    connect to Ollama: " wrapping that error and does nothing after the
    health check: no probe is sent and nothing is logged.  When the probe
    with the text "test" fails it returns "failed to detect embedding
    dimension: " wrapping that error and logs nothing after it.  In every
    case it sends a prefix of the two requests health check, probe, in this
    order. *)
Theorem NewOllamaEmbedder_result (config : Config) w :
  let r := (NewOllamaEmbedder config w).1 in
  let w' := (NewOllamaEmbedder config w).2 in
  let e0 := prototype config in
  (is_Some r.1 ↔ r.2 = None)
  ∧ (∀ err w1,
       OllamaEmbedder.Health e0 context_Background w = (Some err, w1) →
       r = (None, Some (Errorf_w "failed to connect to Ollama: " err))
       ∧ w' = w1
       ∧ (sent w' = sent w
          ∨ sent w' = sent w ++ [health_request e0 context_Background]))
  ∧ (∀ w1 v err w2,
       OllamaEmbedder.Health e0 context_Background w = (None, w1) →
       OllamaEmbedder.embedSingle e0 context_Background "test" w1
       = ((v, Some err), w2) →
       r = (None, Some (Errorf_w "failed to detect embedding dimension: " err))
       ∧ w' = w2)
  ∧ ∃ k : nat,
      (k ≤ 2)%nat
      ∧ sent w' = sent w ++ take k [health_request e0 context_Background;
                                    embed_request e0 context_Background "test"].
Proof.
  intros r w' e0. subst r w'. rewrite NewOllamaEmbedder_cases. fold e0.
  pose proof (Health_sent e0 context_Background w) as Hhs.
  destruct (OllamaEmbedder.Health e0 context_Background w) as [[herr|] w1]
    eqn:Hhealth; cbn [fst snd] in *.
  - split_and!.
    + by split; [intros [??]|].
    + by intros err w1' [= <- <-].
    + by intros w1' v err w2 [=].
    + destruct Hhs as [->| ->]; [exists 0%nat|exists 1%nat]; cbn;
        rewrite ?app_nil_r; split; (done || lia).
  - apply Health_ok_sent in Hhealth as Hs1.
    pose proof (embedSingle_sent e0 context_Background "test" w1) as Hps.
    destruct (OllamaEmbedder.embedSingle e0 context_Background "test" w1)
      as [[v [perr|]] w2] eqn:Hprobe; cbn [fst snd] in *.
    + split_and!.
      * by split; [intros [??]|].
      * by intros err w1' [=].
      * by intros w1' v' err w2' [= <-]; rewrite Hprobe; intros [= <- <- <-].
      * destruct Hps as [Hps|Hps]; [exists 1%nat|exists 2%nat]; cbn;
          rewrite Hps, Hs1, <- ?app_assoc; split; (done || lia).
    + pose proof (embedSingle_ok _ _ _ _ _ _ Hprobe) as [Hs2 _].
      split_and!.
      * by split; [|eexists].
      * by intros err w1' [=].
      * by intros w1' v' err w2' [= <-]; rewrite Hprobe; intros [=].
      * exists 2%nat. split; [lia|]. cbn [take].
        match goal with
        | |- context [Logger.Debug ?l ?m ?f w2] =>
            pose proof (Debug_same_io l m f w2) as [_ Hs3];
            destruct (Logger.Debug l m f w2) as [[] w3]
        end.
        cbn [snd] in *.
        match goal with
        | |- context [Logger.Info ?l ?m ?f w3] =>
            destruct (log_eq l "INFO" m f w3) as [line Hline];
            unfold Logger.Info; rewrite Hline
        end.
        cbn [snd sent after_log]. rewrite Hs3, Hs2, Hs1. by rewrite <- app_assoc.
Qed.

(** X15.  One closing slash of the base URL is dropped.  For a base URL
    that does not end in a slash, constructing with the URL and with the
    URL followed by "/" talks to the same address, returns the same result
    (the same embedder or the same error) and leaves the same environment
    and the same requests sent; the lines logged may differ, as the line
    logged on success shows the URL as configured. *)
Theorem NewOllamaEmbedder_trailing_slash (config : Config) w :
  has_suffix (BaseURL config) "/" = false →
  let config' := {| Provider := Provider config;
                    BaseURL := BaseURL config +:+ "/";
                    Model := Model config; Timeout := Timeout config;
                    Options := Options config |} in
  OllamaEmbedder.baseURL (prototype config') = BaseURL config
  ∧ OllamaEmbedder.baseURL (prototype config) = BaseURL config
  ∧ (NewOllamaEmbedder config' w).1 = (NewOllamaEmbedder config w).1
  ∧ same_io (NewOllamaEmbedder config' w).2 (NewOllamaEmbedder config w).2.
Proof.
  intros Hno config'.
  assert (OllamaEmbedder.baseURL (prototype config') = BaseURL config) as Hbase
    by apply TrimSuffix_append.
  assert (OllamaEmbedder.baseURL (prototype config) = BaseURL config) as Hsame.
  { unfold prototype. cbn. unfold TrimSuffix. by rewrite Hno. }
  do 2 (split; [done|]).
  assert (prototype config' = prototype config) as Hproto.
  { unfold prototype in *. cbn in *. by rewrite Hbase, Hsame. }
  rewrite !NewOllamaEmbedder_cases. rewrite Hproto.
  destruct (OllamaEmbedder.Health (prototype config) context_Background w)
    as [[herr|] w1]; [done|].
  destruct (OllamaEmbedder.embedSingle (prototype config) context_Background
              "test" w1) as [[v [perr|]] w2]; [done|].
  cbn [fst snd]. split; [done|].
  destruct (Logger.Debug _ _ _ w2) as [[] w3]. cbn [snd].
  unfold Logger.Info.
  destruct (log_eq (NewLogger "ollama-embedder") "INFO" "Ollama嵌入服务初始化成功"
              [Fields.String "base_url" (BaseURL config');
               Fields.String "model" (Model config');
               Fields.Int "dimension" (len (elems v))] w3) as [line1 ->].
  destruct (log_eq (NewLogger "ollama-embedder") "INFO" "Ollama嵌入服务初始化成功"
              [Fields.String "base_url" (BaseURL config);
               Fields.String "model" (Model config);
               Fields.Int "dimension" (len (elems v))] w3) as [line2 ->].
  done.
Qed.

End ConstructionMore.

(** ** Loading a configuration and the package-level functions *)

Section ConfigMore.
Context `{ExternalCalls}.

(** X16.  With defaults that are all set (no empty string, no zero
    timeout), [LoadConfig] returns either a configuration and no error, or
    no configuration and the error of reading the file or of parsing it.  A
    configuration it returns has no empty field: provider, base URL and
    model are not empty, the timeout is not zero and the option map is not
    nil.  [LoadConfig] sends no request and logs nothing. *)
Theorem LoadConfig_fully_populated (g : Globals) (path : string) (w : World) :
  Provider (DefaultConfig g) ≠ "" →
  BaseURL (DefaultConfig g) ≠ "" →
  Model (DefaultConfig g) ≠ "" →
  Timeout (DefaultConfig g) ≠ 0 →
  match (LoadConfig g path w).1 with
  | (Some config, None) =>
      Provider config ≠ "" ∧ BaseURL config ≠ "" ∧ Model config ≠ ""
      ∧ Timeout config ≠ 0 ∧ Options config ≠ None
  | (None, Some err) =>
      (os_ReadFile path (env w)).1.2 = Some err
      ∨ ((os_ReadFile path (env w)).1.2 = None
         ∧ (yaml_Unmarshal (os_ReadFile path (env w)).1.1 zero_Config).2 = Some err)
  | _ => False
  end
  ∧ sent (LoadConfig g path w).2 = sent w
  ∧ logged (LoadConfig g path w).2 = logged w.
Proof.
  intros Hp Hb Hm Ht.
  destruct (os_ReadFile path (env w)) as [[data [rerr|]] env'] eqn:Hread.
  - rewrite (LoadConfig_read_error _ _ _ _ _ _ Hread). cbn. split_and!; try done.
    by left.
  - destruct (yaml_Unmarshal data zero_Config) as [parsed [perr|]] eqn:Hparse.
    + rewrite (LoadConfig_parse_error _ _ _ _ _ _ _ Hread Hparse). cbn.
      split_and!; try done. right. by rewrite Hparse.
    + rewrite (LoadConfig_parsed _ _ _ _ _ _ Hread Hparse). cbn.
      split_and!; try done; by case_bool_decide.
Qed.

(** X17.  The package-level functions on the package registry as
    initialised.  Registering a name other than "ollama" succeeds and logs
    one line; afterwards [ListProviders] lists that name and "ollama" and
    nothing else, [CreateEmbedder] with the name is the registered
    constructor run on the defaults with the provider replaced by the name,
    [CreateEmbedderWithConfig] with a configuration for the name is the
    constructor run on that configuration, a second [RegisterProvider] of
    the name fails with "provider <name> already registered" and changes
    nothing, and "ollama" is still bound to its own constructor. *)
Theorem Package_register_then_create (g : Globals) (name : string)
    (p : ProviderFunc) (w w1 : World) :
  name ≠ "ollama" →
  let pkg := (Package_init w).1 in
  ∃ pkg' line,
    RegisterProvider pkg name p w1 = ((pkg', None), after_log w1 line)
    ∧ (∀ l, l ≡ₚ ListProviders pkg' → l ≡ₚ [name; "ollama"])
    ∧ (∀ w2, ∃ line2,
         CreateEmbedder g pkg' name w2
         = p {| Provider := name; BaseURL := BaseURL (DefaultConfig g);
                Model := Model (DefaultConfig g);
                Timeout := Timeout (DefaultConfig g);
                Options := Options (DefaultConfig g) |}
             (after_log w2 line2))
    ∧ (∀ baseURL model timeout options w2, ∃ line2,
         let config := {| Provider := name; BaseURL := baseURL; Model := model;
                          Timeout := timeout; Options := options |} in
         CreateEmbedderWithConfig pkg' config w2 = p config (after_log w2 line2))
    ∧ (∀ p' w2,
         RegisterProvider pkg' name p' w2
         = ((pkg', Some (duplicate_error name)), w2))
    ∧ Factory.providers (defaultFactory pkg') !! "ollama" = Some ollama_provider.
Proof.
  intros Hname pkg.
  assert (Factory.providers (defaultFactory pkg) = {[ "ollama" := ollama_provider ]})
    as Hinit.
  { subst pkg. unfold Package_init, mbind, M_bind.
    pose proof (NewFactory_providers w) as Hnf.
    by destruct (NewFactory w). }
  assert (Factory.providers (defaultFactory pkg) !! name = None) as Hfree.
  { rewrite Hinit. by apply lookup_singleton_ne. }
  destruct (RegisterProvider_fresh_eq (defaultFactory pkg) name p w1 Hfree)
    as [line Hreg].
  unfold RegisterProvider at 1. unfold mbind, M_bind. rewrite Hreg.
  eexists _, line. split; [reflexivity|].
  unfold ListProviders, CreateEmbedder, CreateEmbedderWithConfig, RegisterProvider.
  cbn [defaultFactory]. split_and!.
  - intros l ->. unfold Factory.ListProviders. cbn [Factory.providers].
    rewrite map_to_list_insert by done. rewrite Hinit, map_to_list_singleton. done.
  - intros w2. apply Create_registered. cbn. apply lookup_insert_eq.
  - intros baseURL model timeout options w2.
    apply CreateWithConfig_registered. cbn. apply lookup_insert_eq.
  - intros p' w2. unfold mbind, M_bind.
    rewrite (RegisterProvider_present _ _ _ p) by (cbn; apply lookup_insert_eq).
    done.
  - cbn. rewrite lookup_insert_ne by done. rewrite Hinit.
    apply lookup_singleton_eq.
Qed.

End ConfigMore.

(** ** The result of [BatchEmbed] *)

Section BatchMore.
Context `{ExternalCalls}.
Implicit Types (e : OllamaEmbedder.t) (ctx : Context_) (w : World).

(** X18.  For a batch size that is an [int] and texts whose doubled length
    is an [int], [BatchEmbed] returns, and succeeds when and only when
    [Embed] on all texts does.  On success it returns one vector per text;
    the sequence it returns is nil exactly when there are no texts (where
    [Embed] returns an empty sequence that is not nil), and on failure it is
    nil. *)
Theorem BatchEmbed_result_shape e ctx (texts : list string) (batchSize : Z) w :
  is_int batchSize →
  2 * len texts ≤ int_max →
  ∃ res err w',
    OllamaEmbedder.BatchEmbed e ctx texts batchSize w = (Returns (res, err), w')
    ∧ (err = None → length (elems res) = length texts)
    ∧ (err = None → (res = None ↔ texts = []))
    ∧ (err ≠ None → res = None)
    ∧ (err = None ↔ (OllamaEmbedder.Embed e ctx texts w).1.2 = None).
Proof.
  intros Hint Hlen.
  rewrite (BatchEmbed_chunks e ctx texts batchSize w Hint Hlen). cbv zeta.
  set (size := if bool_decide (batchSize ≤ 0) then len texts else batchSize).
  destruct (decide (texts = [])) as [->|Hne].
  { exists None, None, w. cbn. split_and!; done. }
  assert (1 ≤ size) as Hsize.
  { subst size. case_bool_decide; [|lia].
    destruct texts; [done|]. rewrite len_cons. pose proof (len_nonneg texts). lia. }
  destruct (Embed_chunks_upto_spec e ctx (Z.to_nat size) (length texts) texts
              None w) as (w' & _ & Hcs); [lia|lia|].
  fold (chunks (Z.to_nat size) texts) in Hcs. rewrite Hcs.
  pose proof (Embed_succeeds_iff e ctx texts w) as Hiff.
  destruct (invoke_in_order e ctx texts w) as [[vs [cause|]] w1] eqn:Hrun;
    apply invoke_in_order_length in Hrun; cbn [fst snd] in *.
  - refine (ex_intro _ _ (ex_intro _ _ (ex_intro _ w' (conj eq_refl _)))).
    rewrite Hiff. split_and!; done.
  - assert (append None vs = Some vs) as -> by (destruct vs; [by destruct texts|done]).
    refine (ex_intro _ _ (ex_intro _ _ (ex_intro _ w' (conj eq_refl _)))).
    rewrite Hiff. cbn [elems].
    split_and!; done.
Qed.

End BatchMore.

(** ** The schedule of [BatchEmbed] *)

Section ChunkCount.
Context {A : Type}.

(** The number of chunks is the length divided by the chunk size, rounded up. *)
Lemma length_chunks_upto (fuel n : nat) (l : list A) :
  (1 ≤ n)%nat → (length l ≤ fuel)%nat →
  length (chunks_upto fuel n l) = ((length l + n - 1) / n)%nat.
Proof.
  intros Hn. revert l. induction fuel as [|fuel IH]; intros l Hfuel.
  - destruct l; [|cbn in Hfuel; lia]. cbn.
    symmetry. apply Nat.div_small. lia.
  - destruct (decide (l = [])) as [->|Hl].
    { cbn. symmetry. apply Nat.div_small. lia. }
    rewrite chunks_upto_cons by done. cbn [length].
    pose proof (length_drop_lt n l Hn Hl) as Hdrop.
    rewrite IH by lia. rewrite length_drop.
    destruct (decide (length l ≤ n)%nat) as [Hle|Hgt].
    + replace (length l - n)%nat with 0%nat by lia.
      assert (1 ≤ length l)%nat by (destruct l; [done|cbn; lia]).
      rewrite (Nat.div_small (0 + n - 1)) by lia.
      apply (Nat.div_unique _ _ 1 (length l - 1)); lia.
    + replace (length l + n - 1)%nat with ((length l - n + n - 1) + 1 * n)%nat by lia.
      rewrite Nat.div_add by lia. lia.
Qed.

(** The [i]-th chunk starts at [i * n]. *)
Lemma chunks_upto_lookup (fuel n : nat) (l : list A) (i : nat) (c : list A) :
  chunks_upto fuel n l !! i = Some c → c = take n (drop (i * n) l).
Proof.
  revert l i. induction fuel as [|fuel IH]; intros l i.
  - by destruct l.
  - destruct (decide (l = [])) as [->|Hl]; [done|].
    rewrite chunks_upto_cons by done.
    destruct i as [|i]; cbn [lookup list_lookup].
    + by intros [= <-].
    + intros Hc%IH. by rewrite Hc, drop_drop.
Qed.

End ChunkCount.

Section Schedule.
Context `{ExternalCalls}.
Implicit Types (e : OllamaEmbedder.t) (ctx : Context_) (w : World).

(** X19.  The schedule of [BatchEmbed] for a positive batch size: it calls
    [Embed] on a list of batches, in order, stopping at the first error;
    there are [len(texts)] divided by [batchSize], rounded up, of them, and
    the [k]-th batch (from 0) is the slice of the texts from [k * batchSize]
    to [(k + 1) * batchSize], cut at the end of the texts. *)
Theorem BatchEmbed_schedule e ctx (texts : list string) (batchSize : Z) w :
  is_int batchSize →
  2 * len texts ≤ int_max →
  0 < batchSize →
  let n := Z.to_nat batchSize in
  ∃ cs : list (list string),
    OllamaEmbedder.BatchEmbed e ctx texts batchSize w
    = (let '(r, w') := Embed_chunks e ctx cs None w in (Returns r, w'))
    ∧ Z.of_nat (length cs) = (len texts + batchSize - 1) `div` batchSize
    ∧ ∀ (k : nat) (batch : list string),
        cs !! k = Some batch →
        slice_expr texts (Z.of_nat k * batchSize)
          (Z.min ((Z.of_nat k + 1) * batchSize) (len texts)) = Some batch.
Proof.
  intros Hint Hlen Hpos n.
  exists (chunks n texts). split_and!.
  - rewrite (BatchEmbed_chunks e ctx texts batchSize w Hint Hlen). cbv zeta.
    by rewrite bool_decide_eq_false_2 by lia.
  - unfold chunks. rewrite length_chunks_upto by (subst n; lia).
    rewrite Nat2Z.inj_div. unfold len. subst n.
    f_equal; lia.
  - intros k batch Hk.
    assert (k < length (chunks n texts))%nat as Hklt by (by eapply lookup_lt_Some).
    unfold chunks in Hklt. rewrite length_chunks_upto in Hklt by (subst n; lia).
    apply chunks_upto_lookup in Hk as ->.
    assert (k * n < length texts)%nat as Hstart.
    { pose proof (Nat.Div0.mul_div_le (length texts + n - 1) n). nia. }
    assert (Z.of_nat n = batchSize) as Hn by (subst n; lia).
    unfold slice_expr, len.
    rewrite bool_decide_eq_true_2 by nia. f_equal.
    replace (Z.to_nat (Z.of_nat k * batchSize)) with (k * n)%nat by nia.
    destruct (decide ((Z.of_nat k + 1) * batchSize ≤ Z.of_nat (length texts)))
      as [Hle|Hgt].
    + rewrite Z.min_l by done. f_equal. nia.
    + rewrite Z.min_r by lia.
      rewrite !take_ge; [done|rewrite length_drop; nia..].
Qed.
End Schedule.

(** ** On the small backend *)

Section MoreOnTheMock.
#[local] Existing Instance Mock.types.
#[local] Existing Instance Mock.calls.

(** Registering "mock" with the factory [NewFactory] returns. *)
Lemma RegisterProvider_fresh_witness :
  let f := (NewFactory Mock.w0).1 in
  let p : ProviderFunc := λ _, mret (None, None) in
  Factory.providers f !! "mock" = None
  ∧ ∃ f', (Factory.RegisterProvider f "mock" p Mock.w0).1 = (f', None)
          ∧ Factory.providers f' !! "mock" = Some p
          ∧ Factory.providers f' !! "ollama" = Factory.providers f !! "ollama".
Proof.
  intros f p.
  assert (Factory.providers f !! "mock" = None) as Hfree by reflexivity.
  split; [exact Hfree|].
  destruct (RegisterProvider_fresh f "mock" p Mock.w0 Hfree)
    as (f' & line & Hreg & Hname & Hother & _).
  exists f'. rewrite Hreg. split; [reflexivity|]. split; [exact Hname|].
  apply Hother. discriminate.
Defined.

(** The factory [NewFactory] returns lists the one name "ollama". *)
Lemma ListProviders_exact_witness :
  let f := (NewFactory Mock.w0).1 in
  ["ollama"] ≡ₚ Factory.ListProviders f
  ∧ size (Factory.providers f) = 1%nat
  ∧ is_Some (Factory.providers f !! "ollama").
Proof.
  intros f.
  assert (["ollama"] ≡ₚ Factory.ListProviders f) as Hperm by reflexivity.
  split; [exact Hperm|].
  destruct (ListProviders_exact f ["ollama"] Hperm) as (Hin & _ & Hlen).
  split; [by rewrite <- Hlen|].
  apply Hin. by left.
Defined.


(** The default base URL, written with and without the closing slash. *)
Lemma NewOllamaEmbedder_trailing_slash_witness :
  has_suffix "http://localhost:11434" "/" = false
  ∧ (NewOllamaEmbedder
       {| Provider := "ollama"; BaseURL := "http://localhost:11434/";
          Model := "qwen2.5:7b"; Timeout := 30 * Second; Options := Some ∅ |}
       Mock.w0).1
    = (NewOllamaEmbedder (DefaultConfig Globals_init) Mock.w0).1.
Proof.
  split; [reflexivity|].
  apply (NewOllamaEmbedder_trailing_slash (DefaultConfig Globals_init) Mock.w0).
  reflexivity.
Defined.

(** The file that gives the model only. *)
Lemma LoadConfig_fully_populated_witness :
  ∃ config,
    (LoadConfig Globals_init "model_only.yaml" Mock.w0).1 = (Some config, None)
    ∧ Provider config ≠ "" ∧ BaseURL config ≠ "" ∧ Model config ≠ ""
    ∧ Timeout config ≠ 0 ∧ Options config ≠ None.
Proof.
  pose proof (LoadConfig_fully_populated Globals_init "model_only.yaml" Mock.w0)
    as Hload.
  assert (∃ config, (LoadConfig Globals_init "model_only.yaml" Mock.w0).1
                    = (Some config, None)) as [config Hconfig]
    by (eexists; vm_compute; reflexivity).
  exists config. rewrite Hconfig in Hload. split; [exact Hconfig|].
  destruct Hload as [Hpopulated _]; [vm_compute; discriminate..|].
  exact Hpopulated.
Defined.

(** The package as initialised, with a provider "mock" registered. *)
Lemma Package_register_then_create_witness :
  "mock" ≠ "ollama"
  ∧ ∃ pkg',
      (RegisterProvider (Package_init Mock.w0).1 "mock"
         (λ _, mret (None, Some (errorString "mock"))) Mock.w0).1 = (pkg', None)
      ∧ (CreateEmbedder Globals_init pkg' "mock" Mock.w0).1
        = (None, Some (errorString "mock")).
Proof.
  split; [discriminate|].
  destruct (Package_register_then_create Globals_init "mock"
              (λ _, mret (None, Some (errorString "mock"))) Mock.w0 Mock.w0)
    as (pkg' & line & Hreg & _ & Hcreate & _); [discriminate|].
  exists pkg'. rewrite Hreg. split; [reflexivity|].
  destruct (Hcreate Mock.w0) as [line2 ->]. reflexivity.
Defined.

(** Three texts in batches of two: three vectors. *)
Lemma BatchEmbed_result_shape_witness :
  is_int 2
  ∧ 2 * len ["a"; "bc"; "def"] ≤ int_max
  ∧ ∃ res w',
      OllamaEmbedder.BatchEmbed Mock.e0 Mock.ctx ["a"; "bc"; "def"] 2 Mock.w0
      = (Returns (res, None), w')
      ∧ length (elems res) = 3%nat.
Proof.
  assert (is_int 2) as Hint by (unfold is_int, int_min, int_max; lia).
  assert (2 * len ["a"; "bc"; "def"] ≤ int_max) as Hlen
    by (unfold int_max, len; cbn; lia).
  split; [exact Hint|]. split; [exact Hlen|].
  destruct (BatchEmbed_result_shape Mock.e0 Mock.ctx ["a"; "bc"; "def"] 2 Mock.w0
              Hint Hlen) as (res & err & w' & HB & Hcount & _ & _ & Hiff).
  assert (err = None) as -> by (apply Hiff; reflexivity).
  exists res, w'. split; [exact HB|]. by apply Hcount.
Defined.

(** Three texts in batches of two: two calls of [Embed]. *)
Lemma BatchEmbed_schedule_witness :
  is_int 2
  ∧ 2 * len ["a"; "bc"; "def"] ≤ int_max
  ∧ 0 < 2
  ∧ ∃ cs : list (list string),
      OllamaEmbedder.BatchEmbed Mock.e0 Mock.ctx ["a"; "bc"; "def"] 2 Mock.w0
      = (let '(r, w') := Embed_chunks Mock.e0 Mock.ctx cs None Mock.w0 in
         (Returns r, w'))
      ∧ length cs = 2%nat.
Proof.
  assert (is_int 2) as Hint by (unfold is_int, int_min, int_max; lia).
  assert (2 * len ["a"; "bc"; "def"] ≤ int_max) as Hlen
    by (unfold int_max, len; cbn; lia).
  split; [exact Hint|]. split; [exact Hlen|]. split; [lia|].
  destruct (BatchEmbed_schedule Mock.e0 Mock.ctx ["a"; "bc"; "def"] 2 Mock.w0
              Hint Hlen) as (cs & HB & Hcount & _); [lia|].
  exists cs. split; [exact HB|].
  apply Nat2Z.inj. rewrite Hcount. reflexivity.
Defined.

End MoreOnTheMock.
